(** * CV / job-description matcher: scoring, interpretation, orchestration

    A shallow embedding of [app/function/utilities.py], [app/schema/schema.py]
    and the upload validation of [app/main.py].

    Modelling conventions.
    - A Python [str] is a [string] whose characters are the code points
      below 256; [lower], [strip] and the regular-expression classes follow
      CPython on that range.
    - A Python [int] is a [Z] (a length is a [nat]); [int(...)] of more than
      4300 digits raises [ValueError], as CPython does by default.
    - A Python [float] is the exact rational value of a finite binary64
      number; every float operation rounds the exact result to the nearest
      binary64 number, ties to even, subnormal numbers included.  Lists are
      shorter than [2^63], so no quotient of the scorer overflows, and
      overflow is not modelled.
    - An uploaded file is known by its name, a [str].
    - Calls that leave the process (PDF reading, the generative model, the
      report writer, the clock) are parameters of a [Section]. *)

From Stdlib Require Import String Ascii List Bool Arith ZArith QArith Qround
  Qpower Lia Lqa.
Import ListNotations.

Open Scope string_scope.

(** ** Exceptions raised inside the scorer *)

(** [ValueError] of [int(...)] on a text of [digits] digits, more than the
    interpreter's limit for the conversion. *)
Inductive exception :=
| ValueError (digits : nat).

(** ** Python string operations *)

Module PyStr.

Local Open Scope nat_scope.

Definition code (c : ascii) : nat := nat_of_ascii c.

(** [str.isspace] on one character. *)
Definition is_space (c : ascii) : bool :=
  let n := code c in
  ((9 <=? n) && (n <=? 13)) || ((28 <=? n) && (n <=? 32))
  || (n =? 133) || (n =? 160).

(** Decimal digit, the class [\d]. *)
Definition is_digit (c : ascii) : bool :=
  let n := code c in (48 <=? n) && (n <=? 57).

(** Characters that [str.lower] changes. *)
Definition is_upper (c : ascii) : bool :=
  let n := code c in
  ((65 <=? n) && (n <=? 90))
  || ((192 <=? n) && (n <=? 222) && negb (n =? 215)).

Definition lower_char (c : ascii) : ascii :=
  if is_upper c then ascii_of_nat (code c + 32) else c.

(** [s.lower()] *)
Fixpoint lower (s : string) : string :=
  match s with
  | EmptyString => EmptyString
  | String c s' => String (lower_char c) (lower s')
  end.

Fixpoint lstrip (s : string) : string :=
  match s with
  | EmptyString => EmptyString
  | String c s' => if is_space c then lstrip s' else s
  end.

Fixpoint rstrip (s : string) : string :=
  match s with
  | EmptyString => EmptyString
  | String c s' =>
      match rstrip s' with
      | EmptyString => if is_space c then EmptyString else String c EmptyString
      | r => String c r
      end
  end.

(** [s.strip()] *)
Definition strip (s : string) : string := rstrip (lstrip s).

(** [needle in hay]: some suffix of [hay] starts with [needle]. *)
Fixpoint str_in (needle hay : string) : bool :=
  String.prefix needle hay
  || match hay with
     | EmptyString => false
     | String _ hay' => str_in needle hay'
     end.

(** [sep.join(l)] *)
Definition join (sep : string) (l : list string) : string := String.concat sep l.

(** [s.endswith(suffix)] *)
Fixpoint endswith (s suffix : string) : bool :=
  String.eqb s suffix
  || match s with
     | EmptyString => false
     | String _ s' => endswith s' suffix
     end.

Definition digit_value (c : ascii) : Z := (Z.of_nat (code c) - 48)%Z.

Fixpoint int_of_digits_from (acc : Z) (s : string) : Z :=
  match s with
  | EmptyString => acc
  | String c s' => int_of_digits_from (10 * acc + digit_value c)%Z s'
  end.

(** [sys.get_int_max_str_digits()], by default. *)
Definition int_max_str_digits : nat := 4300.

(** [int(s)] on a string of decimal digits. *)
Definition int_of_digits (s : string) : exception + Z :=
  if (int_max_str_digits <? String.length s)%nat
  then inl (ValueError (String.length s))
  else inr (int_of_digits_from 0%Z s).

End PyStr.

(** ** Python numbers *)

Module PyNum.

Open Scope Q_scope.

(** [round(x)]: nearest integer, ties to the even one. *)
Definition round_half_even (x : Q) : Z :=
  let f := Qfloor x in
  match Qcompare (x - inject_Z f) (1 # 2) with
  | Lt => f
  | Gt => (f + 1)%Z
  | Eq => if Z.even f then f else (f + 1)%Z
  end.

(** *** binary64 *)

(** The exponent [e] with [2^e <= x < 2^(e+1)], for a positive [x]. *)
Definition ilog2 (x : Q) : Z :=
  let k := (Z.log2 (Qnum x) - Z.log2 (Zpos (Qden x)))%Z in
  if Qle_bool (2 ^ k) x then k else (k - 1)%Z.

(** The exponent of the last of the 53 significant bits; it stops at
    [-1074], where the subnormal numbers are. *)
Definition ulp_exponent (x : Q) : Z := (Z.max (ilog2 x) (-1022) - 52)%Z.

(** The multiple of [2^p] nearest to [x], ties to the even multiple. *)
Definition round_at (p : Z) (x : Q) : Q :=
  inject_Z (round_half_even (x / 2 ^ p)) * 2 ^ p.

(** The binary64 number nearest to [x], ties to even. *)
Definition float_round (x : Q) : Q :=
  match Qcompare x 0 with
  | Lt => Qred (- round_at (ulp_exponent (- x)) (- x))
  | Eq => 0
  | Gt => Qred (round_at (ulp_exponent x) x)
  end.

(** *** Numbers: [int] or [float] *)

Inductive number :=
| PyInt (z : Z)
| PyFloat (x : Q).

(** The exact value, as comparisons see it. *)
Definition value (n : number) : Q :=
  match n with
  | PyInt z => inject_Z z
  | PyFloat x => x
  end.

(** [float(n)], the conversion arithmetic applies to an [int] operand. *)
Definition to_float (n : number) : Q :=
  match n with
  | PyInt z => float_round (inject_Z z)
  | PyFloat x => x
  end.

(** [a + b] *)
Definition py_add (a b : number) : number :=
  match a, b with
  | PyInt x, PyInt y => PyInt (x + y)
  | _, _ => PyFloat (float_round (to_float a + to_float b))
  end.

(** [a * b] *)
Definition py_mul (a b : number) : number :=
  match a, b with
  | PyInt x, PyInt y => PyInt (x * y)
  | _, _ => PyFloat (float_round (to_float a * to_float b))
  end.

(** [a / b] on two [int]s with [b] not 0: the correctly rounded quotient. *)
Definition py_truediv (a b : Z) : number :=
  PyFloat (float_round (inject_Z a / inject_Z b)).

(** [min(a, b)]: the first argument unless the second is smaller. *)
Definition py_min (a b : number) : number :=
  match Qcompare (value b) (value a) with
  | Lt => b
  | _ => a
  end.

(** [round(n)] *)
Definition py_round (n : number) : Z :=
  match n with
  | PyInt z => z
  | PyFloat x => round_half_even x
  end.

(** [round(n, 1)]: an [int] is returned as it is; a [float] is rounded to
    the nearest multiple of one tenth, ties to even, and the result is the
    float nearest to that decimal. *)
Definition py_round1 (n : number) : number :=
  match n with
  | PyInt z => PyInt z
  | PyFloat x =>
      PyFloat (float_round (inject_Z (round_half_even (x * 10)) / 10))
  end.

End PyNum.

(** ** [app/schema/schema.py] *)

Record CVData := mkCVData {
  name : string;
  skills : list string;
  education : list string;
  experience : list string
}.

Record JobData := mkJobData {
  required_skills : list string;
  qualifications : list string;
  experience_needed : string
}.

(** The [float] fields hold the exact value of the float; the model
    constructor converts an [int] argument with [float(...)]. *)
Record ScoreDetails := mkScoreDetails {
  total_score : Z;
  skill_score : Q;
  education_score : Q;
  experience_score : Q;
  skill_matches : nat;
  total_required_skills : nat;
  education_match_found : bool;
  experience_match_found : bool
}.

(** ** [app/function/utilities.py]: the scorer *)

Module Utilities.

Import PyStr PyNum.

(** *** The pattern [(\d+)[-\s]?(?:year|yr)] *)

(** [(?:year|yr)] at the head of [s]. *)
Definition year_word (s : string) : bool :=
  String.prefix "year" s || String.prefix "yr" s.

(** The class [[-\s]]. *)
Definition is_sep (c : ascii) : bool :=
  Nat.eqb (code c) 45 || is_space c.

(** [[-\s]?(?:year|yr)] at the head of [s]: the optional separator is
    tried first, then skipped. *)
Definition match_sep_year (s : string) : bool :=
  match s with
  | String c s' => (is_sep c && year_word s') || year_word s
  | EmptyString => year_word s
  end.

(** The whole pattern anchored at the head of [s]; the result is group 1.
    [\d+] is greedy: a longer run of digits is tried before a shorter
    one. *)
Fixpoint match_years_at (s : string) : option string :=
  match s with
  | EmptyString => None
  | String c s' =>
      if is_digit c then
        match match_years_at s' with
        | Some g => Some (String c g)
        | None =>
            if match_sep_year s' then Some (String c EmptyString) else None
        end
      else None
  end.

(** [re.search]: the match at the leftmost position that has one. *)
Fixpoint search_years (s : string) : option string :=
  match match_years_at s with
  | Some g => Some g
  | None =>
      match s with
      | EmptyString => None
      | String _ s' => search_years s'
      end
  end.

(** *** Normalisation, lines 107-110 *)

Definition normalize (l : list string) : list string :=
  map (fun s => strip (lower s)) l.

(** *** Skill match, lines 112-119 *)

(** [any(req_skill in cv_skill or cv_skill in req_skill
         for cv_skill in cv_skills)] *)
Definition skill_matched (cv_skills : list string) (req_skill : string)
  : bool :=
  existsb (fun cv_skill => str_in req_skill cv_skill
                           || str_in cv_skill req_skill) cv_skills.

(** [sum(1 for req_skill in required_skills if ...)] *)
Definition count_skill_matches (cv_skills required_skills : list string)
  : nat :=
  list_sum (map (fun _ => 1%nat)
                (filter (skill_matched cv_skills) required_skills)).

Definition skill_subscore (cv_data : CVData) (job_data : JobData)
  : number :=
  let cv_skills := normalize (skills cv_data) in
  let required_skills := normalize (required_skills job_data) in
  if (0 <? List.length required_skills)%nat then
    let skill_matches := count_skill_matches cv_skills required_skills in
    py_mul (py_truediv (Z.of_nat skill_matches)
              (Z.of_nat (List.length required_skills)))
      (PyInt 70)
  else PyInt 0.

(** *** Education match, lines 121-153 *)

Definition degree_keywords : list string :=
  ["bachelor"; "master"; "phd"; "diploma"; "degree"; "bs"; "ms";
   "computer science"; "data science"; "mathematics"; "engineering";
   "statistics"; "ai"; "artificial intelligence"; "machine learning"].

Definition cv_edu_text (cv_data : CVData) : string :=
  lower (join " " (normalize (education cv_data))).

Definition job_qual_text (job_data : JobData) : string :=
  lower (join " " (normalize (qualifications job_data))).

Definition has_relevant_education (cv_text : string) : bool :=
  existsb (fun keyword => str_in keyword cv_text) degree_keywords.

(** The loop of lines 139-142. *)
Definition keyword_matches (cv_text job_text : string) : nat :=
  fold_left
    (fun matches keyword =>
       if str_in keyword cv_text && str_in keyword job_text
       then (matches + 1)%nat else matches)
    degree_keywords 0%nat.

(** [edu_score] after lines 145-148, starting from 0. *)
Definition edu_keyword_score (cv_text job_text : string) : Z :=
  if has_relevant_education cv_text then
    if (0 <? keyword_matches cv_text job_text)%nat then 20%Z else 15%Z
  else 0%Z.

(** Lines 151-153 applied to the current [edu_score]. *)
Definition edu_status_rule (edu_score : Z) (cv_text job_text : string)
  : Z :=
  if str_in "pursuing" job_text || str_in "completed" job_text then
    if str_in "bachelor" cv_text || str_in "university" cv_text then
      Z.max edu_score 18
    else edu_score
  else edu_score.

Definition edu_subscore (cv_data : CVData) (job_data : JobData) : Z :=
  if (0 <? List.length (normalize (qualifications job_data)))%nat then
    let cv_text := cv_edu_text cv_data in
    let job_text := job_qual_text job_data in
    edu_status_rule (edu_keyword_score cv_text job_text) cv_text job_text
  else 0%Z.

(** *** Experience match, lines 155-178 *)

Definition cv_exp_text (cv_data : CVData) : string :=
  lower (join " " (experience cv_data)).

Definition has_relevant_exp (cv_data : CVData) : bool :=
  (0 <? String.length (strip (cv_exp_text cv_data)))%nat.

(** Lines 164-165; [int] may raise. *)
Definition required_years (job_data : JobData) : exception + Z :=
  match search_years (lower (experience_needed job_data)) with
  | Some g => int_of_digits g
  | None => inr 0%Z
  end.

Definition experience_subscore (cv_data : CVData) (job_data : JobData)
  : exception + number :=
  let num_experiences := List.length (experience cv_data) in
  match required_years job_data with
  | inl e => inl e
  | inr required_years =>
      inr (if (0 <? num_experiences)%nat && has_relevant_exp cv_data then
             if (required_years <=? 1)%Z then PyInt 10
             else py_min (PyInt 10)
                    (py_mul (py_truediv (Z.of_nat num_experiences)
                               required_years)
                       (PyInt 10))
           else if (0 <? num_experiences)%nat then PyInt 5
           else PyInt 0)
  end.

(** *** The record, lines 180-192 *)

Definition calculate_match_score (cv_data : CVData) (job_data : JobData)
  : exception + ScoreDetails :=
  let cv_skills := normalize (skills cv_data) in
  let required_skills := normalize (required_skills job_data) in
  let skill_score := skill_subscore cv_data job_data in
  let edu_score := edu_subscore cv_data job_data in
  match experience_subscore cv_data job_data with
  | inl e => inl e
  | inr experience_score =>
      inr {| total_score :=
               py_round (py_add (py_add skill_score (PyInt edu_score))
                           experience_score);
             skill_score := to_float (py_round1 skill_score);
             education_score := to_float (py_round1 (PyInt edu_score));
             experience_score := to_float (py_round1 experience_score);
             skill_matches :=
               if (0 <? List.length required_skills)%nat
               then count_skill_matches cv_skills required_skills
               else 0%nat;
             total_required_skills := List.length required_skills;
             education_match_found := (0 <? edu_score)%Z;
             experience_match_found := has_relevant_exp cv_data |}
  end.

(** *** [get_interpretation], lines 194-203 *)

Definition get_interpretation (score : Z) : string :=
  if (80 <=? score)%Z then "Excellent Match! Highly suitable candidate."
  else if (60 <=? score)%Z then
    "Good Match! Suitable candidate with room for growth."
  else if (40 <=? score)%Z then
    "Moderate Match. Some key skills may be missing."
  else "Low Match. Significant skill gaps present.".

End Utilities.

(** ** [app/function/utilities.py]: the orchestrator, and [app/main.py] *)

Section Service.

Import PyStr Utilities.

(** [datetime] values and Python exceptions are opaque; the exceptions of
    the scorer are among them. *)
Variable datetime : Type.
Variable exn : Type.
(** [str(e)] *)
Variable str_of_exn : exn -> string.
Variable as_exn : exception -> exn.

Record MatchResult := mkMatchResult {
  cv_data : CVData;
  job_data : JobData;
  score_details : ScoreDetails;
  timestamp : datetime;
  interpretation : string
}.

(** The three extractors catch every exception themselves and return
    [None]. *)
Variable extract_text_from_pdf : string -> option string.
Variable extract_cv_details : string -> option CVData.
Variable extract_job_details : string -> option JobData.

(** The two readings of [datetime.now()], lines 350 and 355, and
    [strftime("%Y%m%d_%H%M%S")]. *)
Variable now_result now_filename : datetime.
Variable strftime : datetime -> string.

(** [save_results_to_file] may raise; [save_results_to_json] catches its
    own exceptions and then returns the empty string. *)
Variable save_results_to_file :
  CVData -> JobData -> ScoreDetails -> exn + string.
Variable save_results_to_json : MatchResult -> string -> string.

(** [not text] for an [Optional[str]]: [None] or the empty string. *)
Definition no_text (text : option string) : bool :=
  match text with
  | Some t => String.eqb t ""
  | None => true
  end.

(** [not data] for an optional model object: only [None]. *)
Definition no_data {A : Type} (data : option A) : bool :=
  match data with
  | Some _ => false
  | None => true
  end.

Definition match_cv_with_job (cv_file_path job_file_path : string)
  : option MatchResult * option string :=
  let cv_text := extract_text_from_pdf cv_file_path in
  let job_text := extract_text_from_pdf job_file_path in
  match cv_text, job_text with
  | Some cv_text', Some job_text' =>
      if no_text cv_text || no_text job_text then
        (None, Some "Failed to extract text from one or both PDF files")
      else
        let cv_data := extract_cv_details cv_text' in
        let job_data := extract_job_details job_text' in
        match cv_data, job_data with
        | Some cv_data', Some job_data' =>
            match calculate_match_score cv_data' job_data' with
            | inl e => (None, Some (str_of_exn (as_exn e)))
            | inr score_details =>
                let result :=
                  {| cv_data := cv_data';
                     job_data := job_data';
                     score_details := score_details;
                     timestamp := now_result;
                     interpretation :=
                       get_interpretation (total_score score_details) |} in
                let base_filename :=
                  "match_result_" ++ strftime now_filename in
                match
                  save_results_to_file cv_data' job_data' score_details
                with
                | inl e => (None, Some (str_of_exn e))
                | inr pdf_output =>
                    let json_output :=
                      save_results_to_json result base_filename in
                    (Some result,
                     Some ("PDF: " ++ pdf_output ++ ", JSON: "
                           ++ json_output))
                end
            end
        | _, _ =>
            (None, Some "Failed to extract data from CV or Job Description")
        end
  | _, _ =>
      (None, Some "Failed to extract text from one or both PDF files")
  end.

(** *** [app/main.py], lines 52-88 *)

Inductive Response :=
| Returned (match_result : MatchResult)
| HTTPException (status_code : Z) (detail : string).

(** Lines 60-75: the uploads are written under the input directory, which
    gives the two paths or raises. *)
Variable stage_uploads : string -> string -> exn + (string * string).

(** [output_file or "Matching failed"] *)
Definition detail_or_default (output_file : option string) : string :=
  match output_file with
  | Some s => if String.eqb s "" then "Matching failed" else s
  | None => "Matching failed"
  end.

Definition is_pdf_name (filename : string) : bool :=
  endswith (lower filename) ".pdf".

Definition match_cv_job (cv_filename job_filename : string) : Response :=
  if negb (is_pdf_name cv_filename) then
    HTTPException 400 "CV file must be a PDF"
  else if negb (is_pdf_name job_filename) then
    HTTPException 400 "Job file must be a PDF"
  else
    match stage_uploads cv_filename job_filename with
    | inl e =>
        HTTPException 500 ("Error during matching: " ++ str_of_exn e)
    | inr (cv_path, job_path) =>
        match match_cv_with_job cv_path job_path with
        | (Some match_result, _) => Returned match_result
        | (None, output_file) =>
            HTTPException 500 (detail_or_default output_file)
        end
    end.

End Service.

Arguments mkMatchResult {datetime}.
Arguments cv_data {datetime}.
Arguments job_data {datetime}.
Arguments score_details {datetime}.
Arguments timestamp {datetime}.
Arguments interpretation {datetime}.
Arguments Returned {datetime}.
Arguments HTTPException {datetime}.

Import PyStr PyNum Utilities.

(** ** [app/function/utilities.py]: the extractors and the JSON writer *)

Module PyReplace.

(** [s.replace("", new)]: [new] before every character and at the end. *)
Fixpoint interleave (new s : string) : string :=
  match s with
  | EmptyString => new
  | String c s' => new ++ String c (interleave new s')
  end.

(** The scan of [s.replace(old, new)] for a non-empty [old]: occurrences are
    taken leftmost first and do not overlap; [skip] counts the characters of
    the occurrence just replaced that are still to be passed over. *)
Fixpoint replace_from (old new : string) (skip : nat) (s : string)
  : string :=
  match s with
  | EmptyString => EmptyString
  | String c s' =>
      match skip with
      | S k => replace_from old new k s'
      | O =>
          if String.prefix old s then
            new ++ replace_from old new (String.length old - 1) s'
          else String c (replace_from old new 0 s')
      end
  end.

(** [s.replace(old, new)] *)
Definition replace (old new s : string) : string :=
  match old with
  | EmptyString => interleave new s
  | _ => replace_from old new 0 s
  end.

End PyReplace.

Section Extractors.

Import PyStr PyReplace.

Variables (datetime exn json : Type).

(** Lines 58 and 61 (and 92 and 95): the response text is trimmed, the code
    fence markers are removed and the rest is trimmed again. *)
Definition clean_json_text (response_text : string) : string :=
  strip (replace "```" "" (replace "```json" "" (strip response_text))).

(** [model.generate_content(prompt).text], [json.loads] and the two model
    constructors may raise; the prompt templates are taken as given. *)
Variable generate_content : string -> exn + string.
Variable json_loads : string -> exn + json.
Variable CVData_of : json -> exn + CVData.
Variable JobData_of : json -> exn + JobData.
Variables (cv_prompt job_prompt : string -> string).

(** Lines 34-67. *)
Definition extract_cv_details (cv_text : string) : option CVData :=
  match generate_content (cv_prompt cv_text) with
  | inl _ => None
  | inr response_text =>
      match json_loads (clean_json_text response_text) with
      | inl _ => None
      | inr cv_data_dict =>
          match CVData_of cv_data_dict with
          | inl _ => None
          | inr cv_data => Some cv_data
          end
      end
  end.

(** Lines 69-101. *)
Definition extract_job_details (job_text : string) : option JobData :=
  match generate_content (job_prompt job_text) with
  | inl _ => None
  | inr response_text =>
      match json_loads (clean_json_text response_text) with
      | inl _ => None
      | inr job_data_dict =>
          match JobData_of job_data_dict with
          | inl _ => None
          | inr job_data => Some job_data
          end
      end
  end.

(** [PyPDF2.PdfReader(path)] raises or gives the pages; each page's
    [extract_text()] raises or gives its text. *)
Variable PdfReader : string -> exn + list (exn + string).

(** The loop of lines 27-28, [text += page.extract_text()]. *)
Fixpoint read_pages (text : string) (pages : list (exn + string))
  : exn + string :=
  match pages with
  | [] => inr text
  | page :: rest =>
      match page with
      | inl e => inl e
      | inr page_text => read_pages (text ++ page_text) rest
      end
  end.

(** Lines 22-32. *)
Definition extract_text_from_pdf (pdf_file_path : string) : option string :=
  match PdfReader pdf_file_path with
  | inl _ => None
  | inr pages =>
      match read_pages "" pages with
      | inl _ => None
      | inr text => Some text
      end
  end.

(** The output directory, path joining, and the writing of lines 311-318
    (directory creation, opening and dumping), which may raise. *)
Variable OUTPUT_DIR : string.
Variable joinpath : string -> string -> string.
Variable dump_json : string -> @MatchResult datetime -> exn + unit.

(** Lines 307-323. *)
Definition save_results_to_json (result : @MatchResult datetime)
  (base_filename : string) : string :=
  let output_file := joinpath OUTPUT_DIR (base_filename ++ ".json") in
  match dump_json output_file result with
  | inl _ => ""
  | inr _ => output_file
  end.

End Extractors.

(** ** Specification-side notions *)

(** An integer that is a binary64 number: converting it to [float] keeps
    its value. *)
Definition exact_int (z : Z) : Prop := float_round (inject_Z z) = inject_Z z.

(** A number between 0 and the integer [b]. *)
Definition in_range (n : number) (b : Z) : Prop :=
  (0 <= value n /\ value n <= inject_Z b)%Q.

(** [a] occurs in [b] as a contiguous run of characters. *)
Definition Substring (a b : string) : Prop :=
  exists pre suf, b = pre ++ a ++ suf.

(** A normalised required skill is matched by the normalised candidate
    skills: containment in either direction with some candidate skill. *)
Definition SkillMatches (cv_skills : list string) (req_skill : string)
  : Prop :=
  exists cv_skill,
    In cv_skill cv_skills
    /\ (Substring req_skill cv_skill \/ Substring cv_skill req_skill).

(** A string of whitespace only (the empty string included). *)
Fixpoint blank (s : string) : bool :=
  match s with
  | EmptyString => true
  | String c s' => is_space c && blank s'
  end.

(** A string of decimal digits only. *)
Fixpoint all_digits (s : string) : bool :=
  match s with
  | EmptyString => true
  | String c s' => is_digit c && all_digits s'
  end.

(** The experience rule in the specification's words: three cases on the
    number of entries and the required years. *)
Definition experience_three_case_rule (cv_data : CVData) (job_data : JobData)
  : exception + number :=
  let entryCount := List.length (experience cv_data) in
  match required_years job_data with
  | inl e => inl e
  | inr requiredYears =>
      inr (if (entryCount =? 0)%nat then PyInt 0
           else if (requiredYears <=? 1)%Z then PyInt 10
           else py_min (PyInt 10)
                  (py_mul (py_truediv (Z.of_nat entryCount) requiredYears)
                     (PyInt 10)))
  end.

(** The same rule with the case the code adds: entries that are all blank
    earn the partial credit of 5. *)
Definition experience_four_case_rule (cv_data : CVData) (job_data : JobData)
  : exception + number :=
  let entryCount := List.length (experience cv_data) in
  match required_years job_data with
  | inl e => inl e
  | inr requiredYears =>
      inr (if (entryCount =? 0)%nat then PyInt 0
           else if forallb blank (experience cv_data) then PyInt 5
           else if (requiredYears <=? 1)%Z then PyInt 10
           else py_min (PyInt 10)
                  (py_mul (py_truediv (Z.of_nat entryCount) requiredYears)
                     (PyInt 10)))
  end.

(** The education score by the keyword rule and the empty-qualifications
    rule alone, without the pursuing/completed rule. *)
Definition edu_rules_1_3 (cv_data : CVData) (job_data : JobData) : Z :=
  match qualifications job_data with
  | [] => 0%Z
  | _ => edu_keyword_score (cv_edu_text cv_data) (job_qual_text job_data)
  end.

(** The complete result for a candidate, a job and their score record:
    both profiles, the record, the creation time and the interpretation of
    the total. *)
Definition complete_result {datetime : Type} (created : datetime)
  (cv : CVData) (job : JobData) (sd : ScoreDetails) : @MatchResult datetime :=
  {| cv_data := cv;
     job_data := job;
     score_details := sd;
     timestamp := created;
     interpretation := get_interpretation (total_score sd) |}.

(** [2^53]: up to this count, the binary64 quotient of a smaller count by
    a count is below 1, and that of a positive count by a count is above
    0. *)
Definition exact_count_limit : Z := (2 ^ 53)%Z.

(** ** Concrete profiles and collaborators used below *)

Module Sample.

(** The end-to-end scenario. *)
Definition cv_scenario : CVData :=
  {| name := "Ada";
     skills := ["Python"; "SQL"; "Communication"];
     education := ["Bachelor of Science in Computer Science"];
     experience := ["Software Engineer, Acme, 2019-2021"] |}.

Definition job_scenario : JobData :=
  {| required_skills := ["python"; "sql"; "leadership"];
     qualifications := ["bachelor in computer science"];
     experience_needed := "2 years required" |}.

(** One experience entry that is the empty string. *)
Definition cv_blank_entry : CVData :=
  {| name := "Ada"; skills := []; education := []; experience := [""] |}.

Definition job_empty : JobData :=
  {| required_skills := []; qualifications := []; experience_needed := "" |}.

(** Four of eleven required skills matched, nothing else. *)
Definition cv_four_skills : CVData :=
  {| name := "Ada"; skills := ["a"; "b"; "c"; "d"];
     education := []; experience := [] |}.

Definition job_eleven_skills : JobData :=
  {| required_skills :=
       ["a"; "b"; "c"; "d"; "e"; "f"; "g"; "h"; "i"; "j"; "k"];
     qualifications := [];
     experience_needed := "" |}.

(** Education that only the pursuing/completed rule rewards. *)
Definition cv_university : CVData :=
  {| name := "Ada"; skills := [];
     education := ["University of Colombo"]; experience := [] |}.

Definition job_completed : JobData :=
  {| required_skills := [];
     qualifications := ["Completed secondary school"];
     experience_needed := "" |}.

(** Deterministic stand-ins for the external collaborators. *)
Definition pdf_text (path : string) : option string := Some ("text of " ++ path).
Definition cv_of_text (_ : string) : option CVData := Some cv_scenario.
Definition job_of_text (_ : string) : option JobData := Some job_scenario.
Definition write_pdf (_ : CVData) (_ : JobData) (_ : ScoreDetails)
  : unit + string := inr "output/match_result_20240101_000000.pdf".
Definition write_json (_ : @MatchResult Z) (base : string) : string :=
  "output/" ++ base ++ ".json".
Definition stage (cv_name job_name : string) : unit + (string * string) :=
  inr ("input/cv_" ++ cv_name, "input/job_" ++ job_name).
Definition describe (_ : unit) : string := "error".
Definition stamp (_ : Z) : string := "20240101_000000".
Definition failing_pdf (_ : CVData) (_ : JobData) (_ : ScoreDetails)
  : unit + string := inl tt.
Definition as_unit (_ : exception) : unit := tt.

(** A job whose experience text counts 4301 digits of years. *)
Definition long_digits : string :=
  string_of_list_ascii (repeat "9"%char 4301).
Definition job_long_years : JobData :=
  {| required_skills := ["python"; "sql"; "leadership"];
     qualifications := ["bachelor in computer science"];
     experience_needed := long_digits ++ " years" |}.
Definition job_of_text_long (_ : string) : option JobData :=
  Some job_long_years.

End Sample.

(** ** Notions for the response cleaning *)

Definition backtick : ascii := "`"%char.

(** The number of backticks a string starts with. *)
Fixpoint ticks (s : string) : nat :=
  match s with
  | EmptyString => 0
  | String c s' => if Ascii.eqb c backtick then S (ticks s') else 0
  end.

(** A string without any backtick. *)
Fixpoint no_backtick (s : string) : bool :=
  match s with
  | EmptyString => true
  | String c s' => negb (Ascii.eqb c backtick) && no_backtick s'
  end.

(** Stand-ins for the collaborators of the extractors: a model that answers
    with a fenced block or with the bare text, a parser that accepts one
    text, and readers of a PDF with two pages or with empty pages. *)
Module Fixture.

Definition fenced_model (_ : string) : unit + string :=
  inr "```json{}```".
Definition bare_model (_ : string) : unit + string := inr "{}".
Definition loads (text : string) : unit + string :=
  if String.eqb text "{}" then inr text else inl tt.
Definition cv_of (_ : string) : unit + CVData := inr Sample.cv_scenario.
Definition job_of (_ : string) : unit + JobData := inr Sample.job_scenario.
Definition prompt (text : string) : string := "Analyze: " ++ text.
Definition two_pages (_ : string) : unit + list (unit + string) :=
  inr [inr "Ada "; inr "Lovelace"].
Definition empty_pages (_ : string) : unit + list (unit + string) :=
  inr [inr ""; inr ""].
Definition failing_dump (_ : string) (_ : @MatchResult Z) : unit + unit :=
  inl tt.
Definition join_dir (dir file : string) : string := dir ++ "/" ++ file.

End Fixture.

(** ** Facts about the string operations *)

Section StringFacts.

Lemma append_nil_r (s : string) : s ++ "" = s.
Proof. induction s as [|c s IH]; simpl; [reflexivity | now rewrite IH]. Qed.

Lemma append_assoc (a b c : string) : (a ++ b) ++ c = a ++ (b ++ c).
Proof. induction a as [|x a IH]; simpl; [reflexivity | now rewrite IH]. Qed.

Lemma prefix_spec (a b : string) :
  String.prefix a b = true <-> exists suf, b = a ++ suf.
Proof.
  revert b; induction a as [|x a IH]; intros b.
  - destruct b; simpl; split; eauto.
  - destruct b as [|y b]; simpl.
    + split; [discriminate | intros [suf H]; discriminate].
    + destruct (Ascii.ascii_dec x y) as [->|Hne].
      * rewrite IH. split; intros [suf H]; exists suf.
        -- now rewrite H.
        -- now inversion H.
      * split; [discriminate | intros [suf H]; inversion H; congruence].
Qed.

Lemma Substring_refl (a : string) : Substring a a.
Proof. exists "", "". simpl. now rewrite append_nil_r. Qed.

Lemma Substring_cons (a b : string) (c : ascii) :
  Substring a b -> Substring a (String c b).
Proof. intros [pre [suf ->]]. now exists (String c pre), suf. Qed.

Lemma Substring_trans (a b c : string) :
  Substring a b -> Substring b c -> Substring a c.
Proof.
  intros [p1 [s1 ->]] [p2 [s2 ->]].
  exists (p2 ++ p1), (s1 ++ s2). now rewrite !append_assoc.
Qed.

Lemma Substring_app_l (a b c : string) :
  Substring a b -> Substring a (b ++ c).
Proof.
  intros [p [s ->]]. exists p, (s ++ c). now rewrite !append_assoc.
Qed.

Lemma Substring_app_r (a b c : string) :
  Substring a c -> Substring a (b ++ c).
Proof.
  intros [p [s ->]]. exists (b ++ p), s. now rewrite !append_assoc.
Qed.

(** Python's [in] on strings decides containment. *)
Lemma str_in_spec (a b : string) : str_in a b = true <-> Substring a b.
Proof.
  induction b as [|y b IH].
  - change (str_in a "") with (String.prefix a "" || false).
    rewrite orb_false_r, prefix_spec. split.
    + intros [suf H]. now exists "", suf.
    + intros [pre [suf H]]. destruct pre; [now exists suf | discriminate].
  - change (str_in a (String y b))
      with (String.prefix a (String y b) || str_in a b).
    rewrite orb_true_iff, IH, prefix_spec. split.
    + intros [[suf H] | H].
      * now exists "", suf.
      * now apply Substring_cons.
    + intros [pre [suf H]]. destruct pre as [|x pre].
      * left. now exists suf.
      * right. inversion H. now exists pre, suf.
Qed.

Lemma str_in_nil (a : string) : a <> "" -> str_in a "" = false.
Proof. destruct a; [congruence | reflexivity]. Qed.

Lemma endswith_spec (s suffix : string) :
  endswith s suffix = true <-> exists stem, s = stem ++ suffix.
Proof.
  induction s as [|c s IH].
  - change (endswith "" suffix) with (String.eqb "" suffix || false).
    rewrite orb_false_r, String.eqb_eq. split.
    + intros <-. now exists "".
    + intros [stem H]. destruct stem; [assumption | discriminate].
  - change (endswith (String c s) suffix)
      with (String.eqb (String c s) suffix || endswith s suffix).
    rewrite orb_true_iff, IH, String.eqb_eq. split.
    + intros [<- | [stem ->]]; [now exists "" | now exists (String c stem)].
    + intros [stem H]. destruct stem as [|x stem].
      * now left.
      * right. inversion H. now exists stem.
Qed.

(** *** Whitespace *)

Lemma is_space_lower_char (c : ascii) :
  is_space (lower_char c) = is_space c.
Proof. destruct c as [[] [] [] [] [] [] [] []]; reflexivity. Qed.

Lemma blank_lower (s : string) : blank (lower s) = blank s.
Proof.
  induction s as [|c s IH]; simpl; [reflexivity|].
  now rewrite is_space_lower_char, IH.
Qed.

Lemma blank_app (a b : string) : blank (a ++ b) = blank a && blank b.
Proof.
  induction a as [|c a IH]; simpl; [reflexivity|].
  now rewrite IH, andb_assoc.
Qed.

Lemma blank_join (l : list string) :
  blank (join " " l) = forallb blank l.
Proof.
  induction l as [|a l IH]; [reflexivity|].
  destruct l as [|b l].
  - simpl. now rewrite andb_true_r.
  - change (join " " (a :: b :: l)) with (a ++ " " ++ join " " (b :: l)).
    rewrite !blank_app, IH. reflexivity.
Qed.

Lemma lstrip_blank (s : string) : blank s = true -> lstrip s = "".
Proof.
  induction s as [|c s IH]; simpl; [reflexivity|].
  destruct (is_space c); simpl; [assumption | discriminate].
Qed.

Lemma lstrip_head (s : string) :
  lstrip s = "" \/ exists c t, lstrip s = String c t /\ is_space c = false.
Proof.
  induction s as [|c s IH]; simpl; [now left|].
  destruct (is_space c) eqn:E; [assumption|].
  right. now exists c, s.
Qed.

Lemma lstrip_nil_blank (s : string) : lstrip s = "" -> blank s = true.
Proof.
  induction s as [|c s IH]; simpl; [reflexivity|].
  destruct (is_space c); simpl; [assumption | discriminate].
Qed.

Lemma rstrip_nil_blank (s : string) : rstrip s = "" <-> blank s = true.
Proof.
  induction s as [|c s IH]; simpl; [tauto|].
  destruct (rstrip s) eqn:E.
  - destruct (is_space c); simpl.
    + tauto.
    + split; discriminate.
  - split; [discriminate|].
    rewrite andb_true_iff. intros [_ H]. apply IH in H. discriminate.
Qed.

(** [strip] leaves nothing exactly on whitespace-only strings. *)
Lemma strip_nil_blank (s : string) : strip s = "" <-> blank s = true.
Proof.
  unfold strip. split.
  - intros H. apply rstrip_nil_blank in H.
    destruct (lstrip_head s) as [E | [c [t [E Hc]]]].
    + now apply lstrip_nil_blank.
    + rewrite E in H. simpl in H. rewrite Hc in H. discriminate.
  - intros H. now rewrite (lstrip_blank s H).
Qed.

Lemma length_pos_not_nil (s : string) :
  (0 <? String.length s)%nat = negb (String.eqb s "").
Proof. destruct s; reflexivity. Qed.

End StringFacts.

(** ** Facts about rounding *)

(** Turns an evaluated comparison of rationals into the order fact. *)
Ltac compare_fact H :=
  match type of H with
  | _ = Eq => apply Qeq_alt in H
  | _ = Lt => apply Qlt_alt in H
  | _ = Gt => apply Qgt_alt in H
  end.

Section RoundingFacts.

Local Open Scope Q_scope.

Lemma round_half_even_comp (x y : Q) :
  x == y -> round_half_even x = round_half_even y.
Proof.
  intros H. unfold round_half_even.
  rewrite (Qfloor_comp x y H).
  now rewrite (Qcompare_comp (x - inject_Z (Qfloor y))
                 (y - inject_Z (Qfloor y)) (ltac:(now rewrite H))
                 (1 # 2) (1 # 2) (Qeq_refl _)).
Qed.

Lemma round_half_even_Z (z : Z) : round_half_even (inject_Z z) = z.
Proof.
  unfold round_half_even. rewrite Qfloor_Z.
  destruct (Qcompare (inject_Z z - inject_Z z) (1 # 2)) eqn:E.
  - apply Qeq_alt in E. lra.
  - reflexivity.
  - apply Qgt_alt in E. lra.
Qed.

Lemma pow2_pos (k : Z) : 0 < 2 ^ k.
Proof. apply Qpower_0_lt. reflexivity. Qed.

Lemma pow2_succ (k : Z) : 2 ^ (k + 1) == 2 * 2 ^ k.
Proof. rewrite Qpower_plus by discriminate. ring. Qed.

Lemma pow2_le (a b : Z) : (a <= b)%Z -> 2 ^ a <= 2 ^ b.
Proof. intros H. apply Qpower_le_compat_l; [assumption | discriminate]. Qed.

Lemma pow2_lt_inv (a b : Z) : 2 ^ a < 2 ^ b -> (a < b)%Z.
Proof. intros H. apply (Qpower_lt_compat_l_inv 2); [assumption | reflexivity]. Qed.

Lemma inject_pow2 (k : Z) : (0 <= k)%Z -> inject_Z (2 ^ k) == 2 ^ k.
Proof. intros H. now rewrite Zpower_Qpower. Qed.

(** The exponent found by [ilog2] brackets a positive rational. *)
Lemma ilog2_spec (x : Q) :
  0 < x -> 2 ^ ilog2 x <= x /\ x < 2 ^ (ilog2 x + 1).
Proof.
  intros Hx. unfold ilog2.
  destruct x as [n d]. cbn [Qnum Qden].
  assert (Hn : (0 < n)%Z).
  { unfold Qlt in Hx. simpl in Hx. lia. }
  set (ln := Z.log2 n). set (ld := Z.log2 (Z.pos d)).
  destruct (Z.log2_spec n Hn) as [Hn1 Hn2].
  destruct (Z.log2_spec (Z.pos d) ltac:(lia)) as [Hd1 Hd2].
  fold ln in Hn1, Hn2. fold ld in Hd1, Hd2.
  assert (Hln : (0 <= ln)%Z) by apply Z.log2_nonneg.
  assert (Hld : (0 <= ld)%Z) by apply Z.log2_nonneg.
  rewrite Zle_Qle, inject_pow2 in Hn1, Hd1 by lia.
  rewrite Zlt_Qlt in Hn2, Hd2.
  rewrite inject_pow2 in Hn2, Hd2 by lia.
  replace (Z.succ ln) with (ln + 1)%Z in Hn2 by lia.
  replace (Z.succ ld) with (ld + 1)%Z in Hd2 by lia.
  rewrite pow2_succ in Hn2, Hd2.
  assert (Hx' : n # d == inject_Z n / inject_Z (Z.pos d)) by apply Qmake_Qdiv.
  assert (Hk : 2 ^ (ln - ld) == 2 ^ ln / 2 ^ ld).
  { apply Qpower_minus. discriminate. }
  pose proof (pow2_pos ln) as Pn. pose proof (pow2_pos ld) as Pd.
  assert (HD : 0 < inject_Z (Z.pos d)) by (change 0 with (inject_Z 0); rewrite <- Zlt_Qlt; lia).
  assert (Hup : n # d < 2 ^ (ln - ld + 1)).
  { rewrite pow2_succ, Hk, Hx'.
    apply Qlt_shift_div_r; [assumption|].
    unfold Qdiv. 
    assert (E : 2 * (2 ^ ln * / 2 ^ ld) * inject_Z (Z.pos d) == (2 * 2 ^ ln) * (inject_Z (Z.pos d) * / 2 ^ ld)) by ring.
    rewrite E.
    assert (1 <= inject_Z (Z.pos d) * / 2 ^ ld).
    { apply Qle_shift_div_l; [assumption | now rewrite Qmult_1_l]. }
    revert Hn2 H. generalize (inject_Z (Z.pos d) * / 2 ^ ld). generalize (inject_Z n).
    revert Pn. generalize (2 ^ ln). intros a Pa N q HN Hq. nra. }
  assert (Hlow : 2 ^ (ln - ld - 1) <= n # d).
  { assert (E : 2 ^ (ln - ld - 1) == 2 ^ ln / (2 * 2 ^ ld)).
    { replace (ln - ld - 1)%Z with (ln - (ld + 1))%Z by lia.
      rewrite Qpower_minus by discriminate. now rewrite pow2_succ. }
    rewrite E, Hx'.
    apply Qle_shift_div_l; [assumption|].
    assert (Hq : inject_Z (Z.pos d) / (2 * 2 ^ ld) <= 1).
    { apply Qle_shift_div_r; lra. }
    assert (E2 : 2 ^ ln / (2 * 2 ^ ld) * inject_Z (Z.pos d)
                 == 2 ^ ln * (inject_Z (Z.pos d) / (2 * 2 ^ ld))).
    { unfold Qdiv. ring. }
    rewrite E2. revert Hq Hn1 Pn.
    generalize (inject_Z (Z.pos d) / (2 * 2 ^ ld)), (inject_Z n), (2 ^ ln).
    intros q N a Hq H1 Pa. nra. }
  destruct (Qle_bool (2 ^ (ln - ld)) (n # d)) eqn:T.
  - apply Qle_bool_iff in T. split; assumption.
  - split; [assumption|].
    replace (ln - ld - 1 + 1)%Z with (ln - ld)%Z by lia.
    apply Qnot_le_lt. intros H. apply Qle_bool_iff in H. congruence.
Qed.

Lemma ilog2_mono (x y : Q) : 0 < x -> x <= y -> (ilog2 x <= ilog2 y)%Z.
Proof.
  intros Hx Hxy.
  destruct (ilog2_spec x Hx) as [Hx1 _].
  destruct (ilog2_spec y ltac:(lra)) as [_ Hy2].
  assert (H : 2 ^ ilog2 x < 2 ^ (ilog2 y + 1)) by lra.
  apply pow2_lt_inv in H. lia.
Qed.

Lemma round_half_even_ge (a : Z) (x : Q) :
  inject_Z a <= x -> (a <= round_half_even x)%Z.
Proof.
  intros Ha.
  assert (Hfa : (a <= Qfloor x)%Z).
  { rewrite <- (Qfloor_Z a). now apply Qfloor_resp_le. }
  unfold round_half_even.
  destruct (Qcompare (x - inject_Z (Qfloor x)) (1 # 2));
    [destruct (Z.even (Qfloor x))| |]; lia.
Qed.

Lemma round_half_even_le (b : Z) (x : Q) :
  x <= inject_Z b -> (round_half_even x <= b)%Z.
Proof.
  intros Hb.
  assert (Hfb : (Qfloor x <= b)%Z).
  { rewrite <- (Qfloor_Z b). now apply Qfloor_resp_le. }
  assert (Hup : inject_Z (Qfloor x) < x -> (Qfloor x + 1 <= b)%Z).
  { intros H. assert (H0 : inject_Z (Qfloor x) < inject_Z b) by lra.
    rewrite <- Zlt_Qlt in H0. lia. }
  unfold round_half_even.
  destruct (Qcompare (x - inject_Z (Qfloor x)) (1 # 2)) eqn:E.
  - apply Qeq_alt in E. destruct (Z.even (Qfloor x)); [lia|].
    apply Hup; lra.
  - lia.
  - apply Qgt_alt in E. apply Hup; lra.
Qed.

Lemma round_half_even_floor (x : Q) :
  (Qfloor x <= round_half_even x <= Qfloor x + 1)%Z.
Proof.
  unfold round_half_even.
  destruct (Qcompare (x - inject_Z (Qfloor x)) (1 # 2));
    [destruct (Z.even (Qfloor x))| |]; lia.
Qed.

Lemma round_half_even_monotone (x y : Q) :
  x <= y -> (round_half_even x <= round_half_even y)%Z.
Proof.
  intros H. pose proof (Qfloor_resp_le x y H) as Hf.
  destruct (Z.eq_dec (Qfloor x) (Qfloor y)) as [E | N].
  - unfold round_half_even. rewrite E.
    destruct (Qcompare (x - inject_Z (Qfloor y)) (1 # 2)) eqn:Ex;
      destruct (Qcompare (y - inject_Z (Qfloor y)) (1 # 2)) eqn:Ey;
      compare_fact Ex; compare_fact Ey;
      try (destruct (Z.even (Qfloor y)); lia);
      exfalso; revert Ex Ey; generalize (inject_Z (Qfloor y));
      intros q Ex Ey; lra.
  - pose proof (round_half_even_floor x). pose proof (round_half_even_floor y).
    lia.
Qed.

(** Rounding on one grid. *)
Lemma scale_le (p : Z) (x y : Q) : x <= y -> x / 2 ^ p <= y / 2 ^ p.
Proof.
  intros H. unfold Qdiv. apply Qmult_le_compat_r; [assumption|].
  apply Qinv_le_0_compat, Qlt_le_weak, pow2_pos.
Qed.

Lemma round_at_mono (p : Z) (x y : Q) :
  x <= y -> round_at p x <= round_at p y.
Proof.
  intros H. unfold round_at. apply Qmult_le_compat_r.
  - rewrite <- Zle_Qle. apply round_half_even_monotone. now apply scale_le.
  - apply Qlt_le_weak, pow2_pos.
Qed.

Lemma round_at_le (p m : Z) (x : Q) :
  x <= inject_Z m * 2 ^ p -> round_at p x <= inject_Z m * 2 ^ p.
Proof.
  intros H. unfold round_at. apply Qmult_le_compat_r.
  - rewrite <- Zle_Qle. apply round_half_even_le.
    apply Qle_shift_div_r; [apply pow2_pos | assumption].
  - apply Qlt_le_weak, pow2_pos.
Qed.

Lemma round_at_ge (p m : Z) (x : Q) :
  inject_Z m * 2 ^ p <= x -> inject_Z m * 2 ^ p <= round_at p x.
Proof.
  intros H. unfold round_at. apply Qmult_le_compat_r.
  - rewrite <- Zle_Qle. apply round_half_even_ge.
    apply Qle_shift_div_l; [apply pow2_pos | assumption].
  - apply Qlt_le_weak, pow2_pos.
Qed.

Lemma pow2_split (e : Z) (k : Z) :
  (0 <= k)%Z -> inject_Z (2 ^ k) * 2 ^ (e - k) == 2 ^ e.
Proof.
  intros Hk. rewrite inject_pow2 by assumption.
  rewrite <- Qpower_plus by discriminate. now replace (k + (e - k))%Z with e by lia.
Qed.

(** Rounding of positive rationals preserves order. *)
Lemma round_pos_mono (x y : Q) :
  0 < x -> x <= y ->
  round_at (ulp_exponent x) x <= round_at (ulp_exponent y) y.
Proof.
  intros Hx Hxy.
  pose proof (ilog2_mono x y Hx Hxy) as He.
  destruct (ilog2_spec x Hx) as [_ Hx2].
  destruct (ilog2_spec y ltac:(lra)) as [Hy1 _].
  unfold ulp_exponent.
  destruct (Z.eq_dec (Z.max (ilog2 x) (-1022)) (Z.max (ilog2 y) (-1022)))
    as [E | N].
  - rewrite E. now apply round_at_mono.
  - set (Ex := Z.max (ilog2 x) (-1022)) in *.
    set (Ey := Z.max (ilog2 y) (-1022)) in *.
    assert (Hy : Ey = ilog2 y /\ (Ex + 1 <= ilog2 y)%Z) by lia.
    destruct Hy as [Hy Hlt].
    apply (Qle_trans _ (2 ^ (Ex + 1))).
    + rewrite <- (pow2_split (Ex + 1) 53) by lia.
      replace (Ex + 1 - 53)%Z with (Ex - 52)%Z by lia.
      apply round_at_le.
      replace (Ex - 52)%Z with (Ex + 1 - 53)%Z by lia.
      rewrite (pow2_split (Ex + 1) 53) by lia.
      apply (Qle_trans _ (2 ^ (ilog2 x + 1))); [lra|].
      apply pow2_le. lia.
    + apply (Qle_trans _ (2 ^ Ey)); [apply pow2_le; lia|].
      rewrite <- (pow2_split Ey 52) by lia.
      apply round_at_ge. rewrite (pow2_split Ey 52) by lia.
      rewrite Hy. assumption.
Qed.

Lemma float_round_nonneg (x : Q) : 0 <= x -> 0 <= float_round x.
Proof.
  intros Hx. unfold float_round.
  destruct (Qcompare x 0) eqn:E; compare_fact E; [lra | lra |].
  rewrite Qred_correct. unfold round_at.
  apply Qmult_le_0_compat; [|apply Qlt_le_weak, pow2_pos].
  change 0 with (inject_Z 0). rewrite <- Zle_Qle.
  apply round_half_even_ge. change (inject_Z 0) with 0.
  apply Qle_shift_div_l; [apply pow2_pos | lra].
Qed.

(** Rounding to binary64 preserves the order of non-negative rationals. *)
Lemma float_round_mono (x y : Q) :
  0 <= x -> x <= y -> float_round x <= float_round y.
Proof.
  intros Hx Hxy.
  destruct (Qcompare x 0) eqn:E.
  - unfold float_round at 1. rewrite E. apply float_round_nonneg. lra.
  - compare_fact E. lra.
  - unfold float_round. rewrite E. compare_fact E.
    assert (Ey : Qcompare y 0 = Gt) by (apply Qgt_alt; lra).
    rewrite Ey, !Qred_correct. now apply round_pos_mono.
Qed.

Lemma float_round_comp (x y : Q) :
  0 <= x -> x == y -> float_round x == float_round y.
Proof.
  intros Hx E. apply Qle_antisym; apply float_round_mono; lra.
Qed.

End RoundingFacts.

(** ** Facts about Python numbers *)

Section NumberFacts.

Local Open Scope Q_scope.

Lemma exact_0 : exact_int 0. Proof. reflexivity. Qed.
Lemma exact_1 : exact_int 1. Proof. vm_compute. reflexivity. Qed.
Lemma exact_5 : exact_int 5. Proof. vm_compute. reflexivity. Qed.
Lemma exact_10 : exact_int 10. Proof. vm_compute. reflexivity. Qed.
Lemma exact_15 : exact_int 15. Proof. vm_compute. reflexivity. Qed.
Lemma exact_18 : exact_int 18. Proof. vm_compute. reflexivity. Qed.
Lemma exact_20 : exact_int 20. Proof. vm_compute. reflexivity. Qed.
Lemma exact_30 : exact_int 30. Proof. vm_compute. reflexivity. Qed.
Lemma exact_70 : exact_int 70. Proof. vm_compute. reflexivity. Qed.
Lemma exact_90 : exact_int 90. Proof. vm_compute. reflexivity. Qed.
Lemma exact_100 : exact_int 100. Proof. vm_compute. reflexivity. Qed.

Lemma float_round_le (b : Z) (x : Q) :
  exact_int b -> 0 <= x -> x <= inject_Z b -> float_round x <= inject_Z b.
Proof.
  intros Hb H0 Hx. rewrite <- Hb. now apply float_round_mono.
Qed.

Lemma to_float_range (n : number) (b : Z) :
  exact_int b -> in_range n b ->
  0 <= to_float n /\ to_float n <= inject_Z b.
Proof.
  intros Hb [H0 H1]. destruct n as [z | x]; simpl in *.
  - split; [now apply float_round_nonneg | now apply float_round_le].
  - now split.
Qed.

Lemma py_add_range (a b : number) (A B : Z) :
  exact_int A -> exact_int B -> exact_int (A + B) ->
  in_range a A -> in_range b B -> in_range (py_add a b) (A + B).
Proof.
  intros EA EB EAB Ha Hb.
  destruct (to_float_range a A EA Ha) as [Ha0 Ha1].
  destruct (to_float_range b B EB Hb) as [Hb0 Hb1].
  assert (Hfloat : in_range (PyFloat (float_round (to_float a + to_float b)))
                     (A + B)).
  { split; simpl.
    - apply float_round_nonneg. lra.
    - apply float_round_le; [assumption | lra |].
      rewrite inject_Z_plus. lra. }
  destruct a as [x | x], b as [y | y]; try exact Hfloat.
  destruct Ha as [Hx0 Hx1], Hb as [Hy0 Hy1]. cbn [value] in *.
  unfold in_range, py_add. cbn [value]. rewrite !inject_Z_plus.
  revert Hx0 Hx1 Hy0 Hy1.
  generalize (inject_Z x), (inject_Z y), (inject_Z A), (inject_Z B).
  intros; split; lra.
Qed.

Lemma py_round_range (n : number) (b : Z) :
  in_range n b -> (0 <= py_round n <= b)%Z.
Proof.
  intros [H0 H1]. destruct n as [z | x]; simpl in *.
  - change 0 with (inject_Z 0) in H0. rewrite <- Zle_Qle in H0, H1. lia.
  - split; [now apply round_half_even_ge | now apply round_half_even_le].
Qed.

Lemma py_round1_range (n : number) (b : Z) :
  exact_int b -> in_range n b ->
  0 <= to_float (py_round1 n) /\ to_float (py_round1 n) <= inject_Z b.
Proof.
  intros Hb Hn. destruct n as [z | x].
  - exact (to_float_range (PyInt z) b Hb Hn).
  - destruct Hn as [H0 H1]. simpl in *.
    assert (Hlo : (0 <= round_half_even (x * 10))%Z).
    { apply round_half_even_ge. change (inject_Z 0) with 0. lra. }
    assert (Hhi : (round_half_even (x * 10) <= b * 10)%Z).
    { apply round_half_even_le. rewrite inject_Z_mult.
      change (inject_Z 10) with 10. lra. }
    rewrite Zle_Qle in Hlo, Hhi. rewrite inject_Z_mult in Hhi.
    change (inject_Z 0) with 0 in Hlo. change (inject_Z 10) with 10 in Hhi.
    revert Hlo Hhi. generalize (inject_Z (round_half_even (x * 10))).
    intros r Hlo Hhi.
    assert (Hr : 0 <= r / 10 /\ r / 10 <= inject_Z b).
    { unfold Qdiv. change (/ 10) with (1 # 10). split; lra. }
    split; [apply float_round_nonneg | apply float_round_le]; tauto.
Qed.

(** [round(n, 1)] of an [int] is the [int]. *)
Lemma to_float_round1_int (z : Z) :
  exact_int z -> to_float (py_round1 (PyInt z)) = inject_Z z.
Proof. intros H. exact H. Qed.

Lemma py_min_range (a b : number) (A : Z) :
  in_range a A -> 0 <= value b -> in_range (py_min a b) A.
Proof.
  intros [Ha0 Ha1] Hb. unfold py_min.
  destruct (Qcompare (value b) (value a)) eqn:E; try (now split).
  compare_fact E. split; [assumption | lra].
Qed.

(** [min(a, b)] is [a] when [b] is not smaller, and [b] when it is. *)
Lemma py_min_l (a b : number) : value a <= value b -> py_min a b = a.
Proof.
  intros H. unfold py_min.
  destruct (Qcompare (value b) (value a)) eqn:E; try reflexivity.
  compare_fact E. lra.
Qed.

Lemma py_min_r (a b : number) : value b < value a -> py_min a b = b.
Proof.
  intros H. unfold py_min.
  destruct (Qcompare (value b) (value a)) eqn:E;
    [compare_fact E; lra | reflexivity | compare_fact E; lra].
Qed.

(** A quotient of counts [m / n], rounded, and its product with an exact
    integer [c], rounded. *)
Lemma ratio_rounded_unit (m n : Z) :
  (0 <= m <= n)%Z -> (0 < n)%Z ->
  0 <= float_round (inject_Z m / inject_Z n)
  /\ float_round (inject_Z m / inject_Z n) <= 1.
Proof.
  intros Hm Hn.
  assert (Hpos : 0 < inject_Z n).
  { change 0 with (inject_Z 0). now rewrite <- Zlt_Qlt. }
  assert (H0 : 0 <= inject_Z m / inject_Z n).
  { apply Qle_shift_div_l; [assumption|]. rewrite Qmult_0_l.
    change 0 with (inject_Z 0). rewrite <- Zle_Qle. lia. }
  assert (H1 : inject_Z m / inject_Z n <= 1).
  { apply Qle_shift_div_r; [assumption|]. rewrite Qmult_1_l.
    rewrite <- Zle_Qle. lia. }
  split; [now apply float_round_nonneg|].
  change 1 with (inject_Z 1). now apply float_round_le; [apply exact_1| |].
Qed.

Lemma ratio_rounded_nonneg (m n : Z) :
  (0 <= m)%Z -> (0 < n)%Z -> 0 <= float_round (inject_Z m / inject_Z n).
Proof.
  intros Hm Hn. apply float_round_nonneg.
  apply Qle_shift_div_l.
  - change 0 with (inject_Z 0). now rewrite <- Zlt_Qlt.
  - rewrite Qmult_0_l. change 0 with (inject_Z 0). now rewrite <- Zle_Qle.
Qed.

Lemma py_mul_float_int (f : Q) (c : Z) :
  exact_int c ->
  py_mul (PyFloat f) (PyInt c) = PyFloat (float_round (f * inject_Z c)).
Proof. intros Hc. unfold py_mul, to_float. now rewrite Hc. Qed.

End NumberFacts.
(** ** Facts about the scorer *)

Section ScorerFacts.

Local Open Scope Q_scope.

Lemma list_sum_ones {A : Type} (l : list A) :
  list_sum (map (fun _ => 1%nat) l) = List.length l.
Proof. induction l as [|a l IH]; simpl; [reflexivity | now rewrite IH]. Qed.

Lemma count_skill_matches_filter (cv_skills required : list string) :
  count_skill_matches cv_skills required
  = List.length (filter (skill_matched cv_skills) required).
Proof. apply list_sum_ones. Qed.

Lemma count_skill_matches_le (cv_skills required : list string) :
  (count_skill_matches cv_skills required <= List.length required)%nat.
Proof.
  rewrite count_skill_matches_filter.
  induction required as [|r l IH]; simpl; [lia|].
  destruct (skill_matched cv_skills r); simpl; lia.
Qed.

Lemma length_normalize (l : list string) :
  List.length (normalize l) = List.length l.
Proof. apply length_map. Qed.

(** The boolean matching test decides bidirectional containment. *)
Lemma skill_matched_spec (cv_skills : list string) (req_skill : string) :
  skill_matched cv_skills req_skill = true
  <-> SkillMatches cv_skills req_skill.
Proof.
  unfold skill_matched, SkillMatches. rewrite existsb_exists.
  split; intros [c [Hin H]]; exists c; split; try assumption.
  - apply orb_true_iff in H. now rewrite <- !str_in_spec.
  - apply orb_true_iff. now rewrite !str_in_spec.
Qed.

(** The counting loop over the keywords, for any keyword list and start. *)
Lemma fold_count (p : string -> bool) (l : list string) (acc : nat) :
  fold_left (fun matches keyword =>
               if p keyword then (matches + 1)%nat else matches) l acc
  = (acc + List.length (filter p l))%nat.
Proof.
  revert acc; induction l as [|k l IH]; intros acc; simpl; [lia|].
  rewrite IH. destruct (p k); simpl; lia.
Qed.

Lemma filter_nonempty_existsb {A : Type} (p : A -> bool) (l : list A) :
  (0 <? List.length (filter p l))%nat = existsb p l.
Proof.
  induction l as [|a l IH]; simpl; [reflexivity|].
  destruct (p a); simpl; [reflexivity | assumption].
Qed.

(** The keyword-intersection count is nonzero exactly when some keyword
    occurs in both texts. *)
Lemma keyword_matches_pos (cv_text job_text : string) :
  (0 <? keyword_matches cv_text job_text)%nat
  = existsb (fun k => str_in k cv_text && str_in k job_text) degree_keywords.
Proof.
  unfold keyword_matches.
  rewrite (fold_count (fun k => str_in k cv_text && str_in k job_text)).
  apply filter_nonempty_existsb.
Qed.

Lemma edu_keyword_score_values (cv_text job_text : string) :
  edu_keyword_score cv_text job_text = 0%Z
  \/ edu_keyword_score cv_text job_text = 15%Z
  \/ edu_keyword_score cv_text job_text = 20%Z.
Proof.
  unfold edu_keyword_score.
  destruct (has_relevant_education cv_text); [|now left].
  destruct (0 <? keyword_matches cv_text job_text)%nat; auto.
Qed.

Lemma edu_status_rule_ge (e : Z) (cv_text job_text : string) :
  (e <= edu_status_rule e cv_text job_text)%Z.
Proof.
  unfold edu_status_rule.
  destruct (str_in "pursuing" job_text || str_in "completed" job_text);
    [|lia].
  destruct (str_in "bachelor" cv_text || str_in "university" cv_text); lia.
Qed.

Lemma edu_status_rule_le (e : Z) (cv_text job_text : string) :
  (edu_status_rule e cv_text job_text <= Z.max e 18)%Z.
Proof.
  unfold edu_status_rule.
  destruct (str_in "pursuing" job_text || str_in "completed" job_text);
    [|lia].
  destruct (str_in "bachelor" cv_text || str_in "university" cv_text); lia.
Qed.

Lemma edu_subscore_bounds (cv : CVData) (job : JobData) :
  (0 <= edu_subscore cv job <= 20)%Z.
Proof.
  unfold edu_subscore.
  destruct (0 <? List.length (normalize (qualifications job)))%nat; [|lia].
  cbv zeta.
  pose proof (edu_status_rule_ge
    (edu_keyword_score (cv_edu_text cv) (job_qual_text job))
    (cv_edu_text cv) (job_qual_text job)).
  pose proof (edu_status_rule_le
    (edu_keyword_score (cv_edu_text cv) (job_qual_text job))
    (cv_edu_text cv) (job_qual_text job)).
  destruct (edu_keyword_score_values (cv_edu_text cv) (job_qual_text job))
    as [E | [E | E]]; rewrite E in *; lia.
Qed.

(** Experience counts as relevant unless every entry is blank. *)
Lemma has_relevant_exp_blank (cv : CVData) :
  has_relevant_exp cv = negb (forallb blank (experience cv)).
Proof.
  unfold has_relevant_exp, cv_exp_text.
  rewrite length_pos_not_nil. f_equal.
  rewrite <- blank_join, <- blank_lower.
  destruct (blank (lower (join " " (experience cv)))) eqn:E.
  - apply strip_nil_blank in E. rewrite E. reflexivity.
  - apply String.eqb_neq. intros H. apply strip_nil_blank in H. congruence.
Qed.

(** What a returned record holds. *)
Lemma calculate_match_score_inv (cv : CVData) (job : JobData)
  (sd : ScoreDetails) :
  calculate_match_score cv job = inr sd ->
  exists x,
    experience_subscore cv job = inr x
    /\ total_score sd
       = py_round (py_add (py_add (skill_subscore cv job)
                             (PyInt (edu_subscore cv job))) x)
    /\ skill_score sd = to_float (py_round1 (skill_subscore cv job))
    /\ education_score sd
       = to_float (py_round1 (PyInt (edu_subscore cv job)))
    /\ experience_score sd = to_float (py_round1 x)
    /\ skill_matches sd
       = (if (0 <? List.length (normalize (required_skills job)))%nat
          then count_skill_matches (normalize (skills cv))
                 (normalize (required_skills job))
          else 0%nat)
    /\ total_required_skills sd
       = List.length (normalize (required_skills job))
    /\ education_match_found sd = (0 <? edu_subscore cv job)%Z
    /\ experience_match_found sd = has_relevant_exp cv.
Proof.
  unfold calculate_match_score.
  destruct (experience_subscore cv job) as [e | x]; [discriminate|].
  intros H. inversion H. exists x. repeat split.
Qed.

(** The scorer returns exactly when the year count converts. *)
Lemma calculate_match_score_returns (cv : CVData) (job : JobData) :
  (exists sd, calculate_match_score cv job = inr sd)
  <-> exists years, required_years job = inr years.
Proof.
  unfold calculate_match_score, experience_subscore.
  destruct (required_years job) as [e | years]; split.
  - intros [sd H]. discriminate.
  - intros [years H]. discriminate.
  - intros _. now exists years.
  - intros _. eexists. reflexivity.
Qed.

Lemma experience_subscore_inv (cv : CVData) (job : JobData) (x : number) :
  experience_subscore cv job = inr x ->
  exists years,
    required_years job = inr years
    /\ x = (if (0 <? List.length (experience cv))%nat
               && negb (forallb blank (experience cv))
            then if (years <=? 1)%Z then PyInt 10
                 else py_min (PyInt 10)
                        (py_mul (py_truediv
                                   (Z.of_nat (List.length (experience cv)))
                                   years)
                           (PyInt 10))
            else if (0 <? List.length (experience cv))%nat then PyInt 5
            else PyInt 0).
Proof.
  unfold experience_subscore. rewrite has_relevant_exp_blank.
  destruct (required_years job) as [e | years]; [discriminate|].
  intros H. inversion H. now exists years.
Qed.

Lemma skill_subscore_range (cv : CVData) (job : JobData) :
  in_range (skill_subscore cv job) 70.
Proof.
  unfold skill_subscore.
  destruct (0 <? List.length (normalize (required_skills job)))%nat eqn:E.
  - apply Nat.ltb_lt in E. unfold py_truediv.
    rewrite (py_mul_float_int _ 70 exact_70).
    destruct (ratio_rounded_unit
                (Z.of_nat (count_skill_matches (normalize (skills cv))
                             (normalize (required_skills job))))
                (Z.of_nat (List.length (normalize (required_skills job)))))
      as [H0 H1].
    + pose proof (count_skill_matches_le (normalize (skills cv))
                    (normalize (required_skills job))). lia.
    + lia.
    + revert H0 H1.
      generalize (float_round
        (inject_Z (Z.of_nat (count_skill_matches (normalize (skills cv))
                               (normalize (required_skills job))))
         / inject_Z (Z.of_nat
                       (List.length (normalize (required_skills job)))))).
      intros f H0 H1. change (inject_Z 70) with 70.
      split; cbn [value].
      * apply float_round_nonneg. lra.
      * apply (float_round_le 70 _ exact_70);
          change (inject_Z 70) with 70; lra.
  - split; cbn [value]; discriminate.
Qed.

Lemma experience_subscore_range (cv : CVData) (job : JobData) (x : number) :
  experience_subscore cv job = inr x -> in_range x 10.
Proof.
  intros H. apply experience_subscore_inv in H.
  destruct H as [years [_ ->]].
  assert (H10 : in_range (PyInt 10) 10)
    by (split; cbn [value]; discriminate).
  assert (H5 : in_range (PyInt 5) 10)
    by (split; cbn [value]; discriminate).
  assert (H0 : in_range (PyInt 0) 10)
    by (split; cbn [value]; discriminate).
  destruct ((0 <? List.length (experience cv))%nat
            && negb (forallb blank (experience cv))).
  - destruct (years <=? 1)%Z eqn:E; [assumption|].
    apply Z.leb_gt in E. apply py_min_range; [assumption|].
    unfold py_truediv. rewrite (py_mul_float_int _ 10 exact_10).
    cbn [value]. apply float_round_nonneg.
    pose proof (ratio_rounded_nonneg
                  (Z.of_nat (List.length (experience cv))) years
                  ltac:(lia) ltac:(lia)) as Hr.
    revert Hr. generalize (float_round
      (inject_Z (Z.of_nat (List.length (experience cv))) / inject_Z years)).
    intros f Hr. change (inject_Z 10) with 10. lra.
  - now destruct (0 <? List.length (experience cv))%nat.
Qed.

Lemma edu_subscore_range (cv : CVData) (job : JobData) :
  in_range (PyInt (edu_subscore cv job)) 20.
Proof.
  pose proof (edu_subscore_bounds cv job) as [H0 H1].
  split; cbn [value].
  - change 0 with (inject_Z 0). now rewrite <- Zle_Qle.
  - now rewrite <- Zle_Qle.
Qed.

Lemma edu_subscore_values (cv : CVData) (job : JobData) :
  (edu_subscore cv job = 0 \/ edu_subscore cv job = 15
   \/ edu_subscore cv job = 18 \/ edu_subscore cv job = 20)%Z.
Proof.
  unfold edu_subscore.
  destruct (0 <? List.length (normalize (qualifications job)))%nat;
    [|now left].
  cbv zeta. unfold edu_status_rule.
  destruct (edu_keyword_score_values (cv_edu_text cv) (job_qual_text job))
    as [E | [E | E]]; rewrite E;
    destruct (str_in "pursuing" (job_qual_text job)
              || str_in "completed" (job_qual_text job));
    destruct (str_in "bachelor" (cv_edu_text cv)
              || str_in "university" (cv_edu_text cv));
    simpl; auto.
Qed.

(** The stored education score is the integer education sub-score. *)
Lemma education_score_stored (cv : CVData) (job : JobData) :
  to_float (py_round1 (PyInt (edu_subscore cv job)))
  = inject_Z (edu_subscore cv job).
Proof.
  apply to_float_round1_int.
  destruct (edu_subscore_values cv job) as [E | [E | [E | E]]]; rewrite E.
  - exact exact_0.
  - exact exact_15.
  - exact exact_18.
  - exact exact_20.
Qed.

End ScorerFacts.

(** ** Facts about the years pattern *)

Section YearsFacts.

(** A match of the pattern at the head of a text is a non-empty run of
    digits followed by the optional separator and "year" or "yr". *)
Lemma match_years_at_sound (s g : string) :
  match_years_at s = Some g ->
  g <> "" /\ all_digits g = true
  /\ exists rest, s = g ++ rest /\ match_sep_year rest = true.
Proof.
  revert g; induction s as [|c s IH]; intros g; simpl; [discriminate|].
  destruct (is_digit c) eqn:Ed; [|discriminate].
  destruct (match_years_at s) as [g'|] eqn:Em.
  - intros H. inversion H; subst g. clear H.
    destruct (IH g' eq_refl) as [_ [Hd [rest [-> Hr]]]].
    split; [discriminate|]. split; [simpl; now rewrite Ed, Hd|].
    now exists rest.
  - destruct (match_sep_year s) eqn:Er; [|discriminate].
    intros H. inversion H; subst g. clear H.
    split; [discriminate|]. split; [simpl; now rewrite Ed|].
    now exists s.
Qed.

(** The number that [re.search] captures stands somewhere in the text,
    directly before the optional separator and "year" or "yr". *)
Lemma search_years_sound (s g : string) :
  search_years s = Some g ->
  g <> "" /\ all_digits g = true
  /\ exists pre rest, s = pre ++ g ++ rest /\ match_sep_year rest = true.
Proof.
  induction s as [|c s IH].
  - simpl. discriminate.
  - change (search_years (String c s))
      with (match match_years_at (String c s) with
            | Some g => Some g
            | None => search_years s
            end).
    destruct (match_years_at (String c s)) as [g'|] eqn:Em.
    + intros H. inversion H; subst g'. clear H.
      destruct (match_years_at_sound _ _ Em) as [Hn [Hd [rest [E Hr]]]].
      split; [assumption|]. split; [assumption|].
      exists "", rest. now split.
    + intros H. destruct (IH H) as [Hn [Hd [pre [rest [E Hr]]]]].
      split; [assumption|]. split; [assumption|].
      exists (String c pre), rest. split; [|assumption].
      simpl. now rewrite E.
Qed.

(** The pattern on typical requirement texts. *)
Example required_years_examples :
  required_years (mkJobData [] [] "2 years required") = inr 2%Z
  /\ required_years (mkJobData [] [] "Minimum 3-Year track record") = inr 3%Z
  /\ required_years (mkJobData [] [] "12yrs") = inr 12%Z
  /\ required_years (mkJobData [] [] "5 to 6 years") = inr 6%Z
  /\ required_years (mkJobData [] [] "7  years") = inr 0%Z
  /\ required_years (mkJobData [] [] "some experience") = inr 0%Z.
Proof. repeat split. Qed.

(** Three entries against no stated years earn 10; two entries against
    five required years earn 4; one entry against twelve years earns the
    float that [(1 / 12) * 10] is. *)
Example experience_subscore_examples :
  experience_subscore (mkCVData "Ada" [] [] ["a"; "b"; "c"])
    (mkJobData [] [] "") = inr (PyInt 10)
  /\ experience_subscore (mkCVData "Ada" [] [] ["a"; "b"])
       (mkJobData [] [] "5 years") = inr (PyFloat 4)
  /\ experience_subscore (mkCVData "Ada" [] [] ["a"])
       (mkJobData [] [] "12 years")
     = inr (PyFloat (3752999689475413 # 4503599627370496)).
Proof. vm_compute. repeat split. Qed.

End YearsFacts.

(** ** Facts about the text blobs *)

Section BlobFacts.

Lemma lower_app (a b : string) : lower (a ++ b) = lower a ++ lower b.
Proof. induction a as [|c a IH]; simpl; [reflexivity | now rewrite IH]. Qed.

Lemma Substring_lower (a b : string) :
  Substring a b -> Substring (lower a) (lower b).
Proof.
  intros [pre [suf ->]]. exists (lower pre), (lower suf).
  now rewrite !lower_app.
Qed.

(** Every entry of a list occurs in the joined text. *)
Lemma In_join_Substring (sep x : string) (l : list string) :
  In x l -> Substring x (join sep l).
Proof.
  induction l as [|a l IH]; [contradiction|].
  intros Hin. destruct l as [|b l].
  - destruct Hin as [-> | []]. apply Substring_refl.
  - change (join sep (a :: b :: l)) with (a ++ sep ++ join sep (b :: l)).
    destruct Hin as [-> | Hin].
    + apply Substring_app_l, Substring_refl.
    + apply Substring_app_r, Substring_app_r, IH, Hin.
Qed.

(** What an entry contributes to the lowercase blob of its list. *)
Lemma In_blob_Substring (x : string) (l : list string) :
  In x l ->
  Substring (lower (strip (lower x))) (lower (join " " (normalize l))).
Proof.
  intros Hin. apply Substring_lower, In_join_Substring.
  unfold normalize. now apply (in_map (fun s => strip (lower s))).
Qed.

Lemma qualifications_nonempty (job : JobData) :
  qualifications job <> [] ->
  (0 <? List.length (normalize (qualifications job)))%nat = true.
Proof.
  intros H. rewrite length_normalize.
  destruct (qualifications job); [congruence | reflexivity].
Qed.


Lemma has_relevant_education_spec (cv_text : string) :
  has_relevant_education cv_text = true
  <-> exists k, In k degree_keywords /\ Substring k cv_text.
Proof.
  unfold has_relevant_education. rewrite existsb_exists.
  split; intros [k [Hin H]]; exists k; split; try assumption;
    now apply str_in_spec.
Qed.

Lemma shared_keyword_spec (cv_text job_text : string) :
  (0 <? keyword_matches cv_text job_text)%nat = true
  <-> exists k, In k degree_keywords
                /\ Substring k cv_text /\ Substring k job_text.
Proof.
  rewrite keyword_matches_pos, existsb_exists.
  split; intros [k [Hin H]]; exists k; split; try assumption.
  - apply andb_true_iff in H. now rewrite <- !str_in_spec.
  - apply andb_true_iff. now rewrite !str_in_spec.
Qed.


(** Rule 1, second half: a keyword in both blobs earns the full 20. *)
Lemma edu_subscore_shared (cv : CVData) (job : JobData) :
  qualifications job <> [] ->
  (exists k, In k degree_keywords
             /\ Substring k (cv_edu_text cv)
             /\ Substring k (job_qual_text job)) ->
  edu_subscore cv job = 20%Z.
Proof.
  intros Hq Hk.
  assert (Hrel : has_relevant_education (cv_edu_text cv) = true).
  { apply has_relevant_education_spec.
    destruct Hk as [k [Hin [Hc _]]]. now exists k. }
  apply shared_keyword_spec in Hk.
  pose proof (edu_subscore_bounds cv job) as Hb.
  unfold edu_subscore in *.
  rewrite (qualifications_nonempty job Hq) in *. cbv zeta in *.
  pose proof (edu_status_rule_ge
    (edu_keyword_score (cv_edu_text cv) (job_qual_text job))
    (cv_edu_text cv) (job_qual_text job)) as Hge.
  unfold edu_keyword_score in *. rewrite Hrel, Hk in *. lia.
Qed.

(** An empty qualifications list leaves an empty job blob. *)
Lemma job_qual_text_nil (job : JobData) :
  qualifications job = [] -> job_qual_text job = "".
Proof. intros H. unfold job_qual_text. now rewrite H. Qed.

Lemma edu_rules_1_3_le (cv : CVData) (job : JobData) :
  (edu_rules_1_3 cv job <= edu_subscore cv job)%Z.
Proof.
  unfold edu_rules_1_3, edu_subscore.
  destruct (qualifications job) as [|q l]; [reflexivity|].
  apply edu_status_rule_ge.
Qed.

(** Rule 2 turns the result of rules 1 and 3 into its maximum with 18. *)
Lemma edu_subscore_status (cv : CVData) (job : JobData) :
  Substring "pursuing" (job_qual_text job)
  \/ Substring "completed" (job_qual_text job) ->
  Substring "bachelor" (cv_edu_text cv)
  \/ Substring "university" (cv_edu_text cv) ->
  edu_subscore cv job = Z.max (edu_rules_1_3 cv job) 18.
Proof.
  intros Hj Hc.
  assert (Hq : qualifications job <> []).
  { intros E. rewrite (job_qual_text_nil job E) in Hj.
    destruct Hj as [H | H]; apply str_in_spec in H; discriminate. }
  unfold edu_subscore, edu_rules_1_3.
  rewrite (qualifications_nonempty job Hq). cbv zeta.
  destruct (qualifications job) as [|q l]; [congruence|].
  unfold edu_status_rule.
  rewrite <- !str_in_spec, <- orb_true_iff in Hj, Hc.
  now rewrite Hj, Hc.
Qed.

End BlobFacts.


(** ** The experience sub-score *)

(** C1, as stated, fails: a candidate whose single experience entry is the
    empty string has one entry and no experience text, so the scorer takes
    the partial-credit branch and returns 5, where the three-case rule gives
    10.  The branch is reachable. *)
Lemma C1_partial_credit_reachable :
  experience_subscore Sample.cv_blank_entry Sample.job_empty
  = inr (PyInt 5)
  /\ experience_three_case_rule Sample.cv_blank_entry Sample.job_empty
     = inr (PyInt 10).
Proof. split; reflexivity. Qed.

(** C1, amended: for every candidate and job the experience sub-score is 0
    with no entries, 5 when there are entries and all of them are blank, and
    otherwise 10 when the required years are at most 1 and
    min(10, entryCount / requiredYears * 10) when they exceed 1; it is
    computed exactly when the year count converts to an integer. *)
Theorem C1_experience_four_cases (cv : CVData) (job : JobData) :
  experience_subscore cv job = experience_four_case_rule cv job.
Proof.
  unfold experience_subscore, experience_four_case_rule. cbv zeta.
  rewrite has_relevant_exp_blank.
  destruct (required_years job) as [e | years]; [reflexivity|].
  destruct (experience cv) as [|e l] eqn:E; [reflexivity|].
  change (0 <? List.length (e :: l))%nat with true.
  change (List.length (e :: l) =? 0)%nat with false.
  rewrite andb_true_l.
  now destruct (forallb blank (e :: l)).
Qed.

(** ** Score invariants *)

(** C2, as stated, fails on the last equation: with 4 of 11 required skills
    matched and nothing else, the total is round(25.4545...) = 25, while the
    stored fields are 25.5, 0.0 and 0.0, whose sum rounds (ties to even) to
    26. *)
Lemma C2_total_differs_from_rounded_fields :
  exists sd,
    calculate_match_score Sample.cv_four_skills Sample.job_eleven_skills
    = inr sd
    /\ total_score sd = 25%Z
    /\ skill_score sd = (51 # 2)%Q
    /\ education_score sd = 0%Q
    /\ experience_score sd = 0%Q
    /\ py_round (py_add (py_add (PyFloat (skill_score sd))
                           (PyFloat (education_score sd)))
                   (PyFloat (experience_score sd))) = 26%Z.
Proof. eexists. split; [reflexivity|]. vm_compute. repeat split. Qed.

(** C2, amended: every record produced by [calculate_match_score] has its
    skill, education and experience fields in [0,70], [0,20] and [0,10], an
    integer total in [0,100], and a total equal to round of the sum of the
    three sub-scores before they are rounded to one decimal for storage;
    each stored field is its sub-score rounded to one decimal. *)
Theorem C2_score_invariants (cv : CVData) (job : JobData)
  (sd : ScoreDetails) :
  calculate_match_score cv job = inr sd ->
  (0 <= skill_score sd /\ skill_score sd <= 70)%Q
  /\ (0 <= education_score sd /\ education_score sd <= 20)%Q
  /\ (0 <= experience_score sd /\ experience_score sd <= 10)%Q
  /\ (0 <= total_score sd <= 100)%Z
  /\ exists experience_number,
       experience_subscore cv job = inr experience_number
       /\ total_score sd
          = py_round (py_add (py_add (skill_subscore cv job)
                                (PyInt (edu_subscore cv job)))
                        experience_number)
       /\ skill_score sd = to_float (py_round1 (skill_subscore cv job))
       /\ education_score sd
          = to_float (py_round1 (PyInt (edu_subscore cv job)))
       /\ experience_score sd = to_float (py_round1 experience_number).
Proof.
  intros H. apply calculate_match_score_inv in H.
  destruct H as [x [Hx [Ht [Hs [He [Hxs _]]]]]].
  pose proof (skill_subscore_range cv job) as Rs.
  pose proof (edu_subscore_range cv job) as Re.
  pose proof (experience_subscore_range cv job x Hx) as Rx.
  split; [rewrite Hs; exact (py_round1_range _ 70 exact_70 Rs)|].
  split; [rewrite He; exact (py_round1_range _ 20 exact_20 Re)|].
  split; [rewrite Hxs; exact (py_round1_range _ 10 exact_10 Rx)|].
  split.
  - rewrite Ht. apply py_round_range.
    apply (py_add_range _ _ 90 10 exact_90 exact_10 exact_100);
      [|assumption].
    exact (py_add_range _ _ 70 20 exact_70 exact_20 exact_90 Rs Re).
  - exists x. repeat split; assumption.
Qed.

(** C2 at the end-to-end scenario. *)
Lemma C2_score_invariants_witness :
  exists sd,
    calculate_match_score Sample.cv_scenario Sample.job_scenario = inr sd
    /\ (0 <= total_score sd <= 100)%Z.
Proof.
  eexists. split; [reflexivity|].
  apply (C2_score_invariants Sample.cv_scenario Sample.job_scenario).
  reflexivity.
Defined.

(** ** Trimming and lowercasing, declaratively *)

Section NormalisationSpec.

Lemma lstrip_split (s : string) :
  exists pre, s = pre ++ lstrip s /\ blank pre = true.
Proof.
  induction s as [|c s [pre [IH Hb]]]; simpl; [now exists ""|].
  destruct (is_space c) eqn:Ec.
  - exists (String c pre). simpl. rewrite Ec, Hb. split; [|reflexivity].
    now rewrite <- IH.
  - now exists "".
Qed.

Lemma rstrip_split (s : string) :
  exists suf, s = rstrip s ++ suf /\ blank suf = true.
Proof.
  induction s as [|c s [suf [IH Hb]]]; simpl; [now exists ""|].
  destruct (rstrip s) as [|a r] eqn:E.
  - destruct (is_space c) eqn:Ec.
    + exists (String c s). split; [reflexivity|].
      simpl. rewrite Ec. simpl in IH. now rewrite IH.
    + exists suf. split; [|assumption]. simpl. f_equal. exact IH.
  - exists suf. split; [|assumption]. simpl. f_equal. exact IH.
Qed.

Lemma rstrip_last (s t : string) (c : ascii) :
  rstrip s = t ++ String c "" -> is_space c = false.
Proof.
  revert t; induction s as [|a s IH]; intros t; simpl.
  - destruct t; discriminate.
  - destruct (rstrip s) as [|b r] eqn:E.
    + destruct (is_space a) eqn:Ea.
      * destruct t; discriminate.
      * destruct t as [|x t]; simpl; intros H; inversion H; subst.
        -- assumption.
        -- destruct t; discriminate.
    + destruct t as [|x t]; simpl; intros H; inversion H; subst.
      apply (IH t). assumption.
Qed.

Lemma rstrip_head (c : ascii) (s t : string) (d : ascii) :
  is_space c = false -> rstrip (String c s) = String d t -> d = c.
Proof.
  intros Hc. simpl. destruct (rstrip s); [rewrite Hc|]; intros H;
    now inversion H.
Qed.

(** [strip] removes a blank prefix and a blank suffix and leaves a text that
    neither starts nor ends with whitespace. *)
Lemma strip_spec (s : string) :
  (exists pre suf,
     s = pre ++ strip s ++ suf /\ blank pre = true /\ blank suf = true)
  /\ (forall c t, strip s = String c t -> is_space c = false)
  /\ (forall t c, strip s = t ++ String c "" -> is_space c = false).
Proof.
  unfold strip. split; [|split].
  - destruct (lstrip_split s) as [pre [Hpre Bpre]].
    destruct (rstrip_split (lstrip s)) as [suf [Hsuf Bsuf]].
    exists pre, suf. now rewrite <- Hsuf.
  - intros c t H.
    destruct (lstrip_head s) as [E | [d [u [E Hd]]]]; rewrite E in H.
    + discriminate.
    + now rewrite (rstrip_head d u t c Hd H).
  - intros t c H. exact (rstrip_last _ _ _ H).
Qed.

Lemma lower_char_spec (c : ascii) :
  ((65 <= code c <= 90)%nat -> code (lower_char c) = (code c + 32)%nat)
  /\ ((code c < 65 \/ 90 < code c < 192)%nat -> lower_char c = c).
Proof.
  destruct c as [[] [] [] [] [] [] [] []]; vm_compute;
    split; intros H; try reflexivity; exfalso;
    repeat match goal with
           | H : _ /\ _ |- _ => destruct H
           | H : _ \/ _ |- _ => destruct H
           end; lia.
Qed.

(** [lower] changes no length and works character by character. *)
Lemma lower_spec (s : string) :
  String.length (lower s) = String.length s
  /\ forall n, String.get n (lower s) = option_map lower_char (String.get n s).
Proof.
  induction s as [|c s [IHl IHg]]; simpl.
  - split; [reflexivity | now intros []].
  - split; [now rewrite IHl|]. intros [|n]; [reflexivity | apply IHg].
Qed.

End NormalisationSpec.

(** ** The skill sub-score *)

(** C3: with a non-empty required-skills list the skill sub-score is
    (matched / total) * 70, where the matched skills are exactly the required
    skills that, after lowercasing and trimming, are contained in, or
    contain, some lowercased and trimmed candidate skill (so "java" and
    "javascript" match either way, and one candidate skill may serve several
    required skills); the record stores that value rounded to one decimal
    together with both counts.  With an empty required-skills list the score
    and both counts are 0.  Trimming removes exactly the surrounding
    whitespace and lowercasing maps A-Z to a-z. *)
Theorem C3_skill_score (cv : CVData) (job : JobData) (sd : ScoreDetails) :
  calculate_match_score cv job = inr sd ->
  let cv_skills := map (fun s => strip (lower s)) (skills cv) in
  let required := map (fun s => strip (lower s)) (required_skills job) in
  let matched := filter (skill_matched cv_skills) required in
  (forall r, In r matched <-> In r required /\ SkillMatches cv_skills r)
  /\ match required_skills job with
     | [] =>
         skill_subscore cv job = PyInt 0
         /\ skill_score sd = 0%Q
         /\ skill_matches sd = 0%nat
         /\ total_required_skills sd = 0%nat
     | _ :: _ =>
         skill_subscore cv job
         = py_mul (py_truediv (Z.of_nat (List.length matched))
                     (Z.of_nat (List.length (required_skills job))))
             (PyInt 70)
         /\ skill_score sd = to_float (py_round1 (skill_subscore cv job))
         /\ skill_matches sd = List.length matched
         /\ total_required_skills sd = List.length (required_skills job)
     end
  /\ skill_matched ["javascript"] "java" = true
  /\ skill_matched ["java"] "javascript" = true
  /\ filter (skill_matched ["python programming"]) ["python"; "programming"]
     = ["python"; "programming"]
  /\ (forall s,
        (exists pre suf,
           s = pre ++ strip s ++ suf /\ blank pre = true /\ blank suf = true)
        /\ (forall c t, strip s = String c t -> is_space c = false)
        /\ (forall t c, strip s = t ++ String c "" -> is_space c = false))
  /\ (forall s,
        String.length (lower s) = String.length s
        /\ forall n,
             String.get n (lower s) = option_map lower_char (String.get n s))
  /\ (forall c,
        ((65 <= code c <= 90)%nat ->
         code (lower_char c) = (code c + 32)%nat)
        /\ ((code c < 65 \/ 90 < code c < 192)%nat -> lower_char c = c)).
Proof.
  intros H. apply calculate_match_score_inv in H.
  destruct H as [x [_ [_ [Hs [_ [_ [Hm [Hn _]]]]]]]].
  cbv zeta. fold (normalize (skills cv)) (normalize (required_skills job)).
  split; [|split; [|split; [|split; [|split; [|split; [|split]]]]]].
  - intros r. rewrite filter_In, skill_matched_spec. reflexivity.
  - rewrite Hs, Hm, Hn. unfold skill_subscore.
    rewrite count_skill_matches_filter, !length_normalize.
    destruct (required_skills job) as [|r l] eqn:E.
    + repeat split.
    + change (0 <? List.length (r :: l))%nat with true. cbv iota.
      rewrite <- E. repeat split.
  - reflexivity.
  - reflexivity.
  - reflexivity.
  - exact strip_spec.
  - exact lower_spec.
  - exact lower_char_spec.
Qed.

(** C3 at the end-to-end scenario: two of three required skills. *)
Lemma C3_skill_score_witness :
  exists sd,
    calculate_match_score Sample.cv_scenario Sample.job_scenario = inr sd
    /\ skill_matches sd = 2%nat
    /\ total_required_skills sd = 3%nat.
Proof.
  eexists. split; [reflexivity|].
  destruct (C3_skill_score Sample.cv_scenario Sample.job_scenario _ eq_refl)
    as [_ [[_ [_ [Hm Hn]]] _]].
  split; [exact Hm | exact Hn].
Defined.

(** ** The end-to-end scenario *)

(** C4: a candidate with skills Python, SQL and Communication, an education
    list containing "Bachelor of Science in Computer Science" and one
    non-blank experience entry, against a job requiring python, sql and
    leadership, with "bachelor in computer science" among its qualifications
    and the experience text "2 years required", scores 46.7 for skills (2 of
    3), 20 for education and 5 for experience, 72 in total, and 72 reads as
    a "Good Match!". *)
Theorem C4_end_to_end (cv : CVData) (job : JobData) (entry : string) :
  skills cv = ["Python"; "SQL"; "Communication"] ->
  In "Bachelor of Science in Computer Science" (education cv) ->
  experience cv = [entry] ->
  blank entry = false ->
  required_skills job = ["python"; "sql"; "leadership"] ->
  In "bachelor in computer science" (qualifications job) ->
  experience_needed job = "2 years required" ->
  exists sd,
    calculate_match_score cv job = inr sd
    /\ skill_score sd = float_round (467 # 10)
    /\ skill_matches sd = 2%nat
    /\ total_required_skills sd = 3%nat
    /\ (education_score sd == 20)%Q
    /\ (experience_score sd == 5)%Q
    /\ total_score sd = 72%Z
    /\ get_interpretation (total_score sd)
       = "Good Match! Suitable candidate with room for growth.".
Proof.
  intros Hs Hedu Hexp Hblank Hr Hq Hneed.
  assert (Hskill : skill_subscore cv job
                   = PyFloat (6567749456581973 # 140737488355328)).
  { unfold skill_subscore. rewrite Hs, Hr. vm_compute. reflexivity. }
  assert (Hcount : count_skill_matches (normalize (skills cv))
                     (normalize (required_skills job)) = 2%nat).
  { rewrite Hs, Hr. reflexivity. }
  assert (He : edu_subscore cv job = 20%Z).
  { apply edu_subscore_shared.
    - intros E. rewrite E in Hq. contradiction.
    - exists "bachelor". split; [left; reflexivity|]. split.
      + apply (Substring_trans _ _ _
                 (proj1 (str_in_spec "bachelor"
                           "bachelor of science in computer science")
                    eq_refl)).
        apply (In_blob_Substring _ _ Hedu).
      + apply (Substring_trans _ _ _
                 (proj1 (str_in_spec "bachelor"
                           "bachelor in computer science") eq_refl)).
        apply (In_blob_Substring _ _ Hq). }
  assert (Hx : experience_subscore cv job = inr (PyFloat 5)).
  { unfold experience_subscore, required_years. cbv zeta.
    rewrite has_relevant_exp_blank, Hexp, Hneed. simpl forallb.
    rewrite Hblank. vm_compute. reflexivity. }
  eexists. split.
  - unfold calculate_match_score. rewrite Hx. reflexivity.
  - cbn [skill_score skill_matches total_required_skills education_score
         experience_score total_score].
    rewrite Hskill, He, Hcount, Hr.
    repeat split; vm_compute; reflexivity.
Qed.

(** C4 at the scenario's own profiles. *)
Lemma C4_end_to_end_witness :
  exists sd,
    calculate_match_score Sample.cv_scenario Sample.job_scenario = inr sd
    /\ skill_score sd = float_round (467 # 10)
    /\ skill_matches sd = 2%nat
    /\ total_required_skills sd = 3%nat
    /\ (education_score sd == 20)%Q
    /\ (experience_score sd == 5)%Q
    /\ total_score sd = 72%Z
    /\ get_interpretation (total_score sd)
       = "Good Match! Suitable candidate with room for growth.".
Proof.
  apply (C4_end_to_end Sample.cv_scenario Sample.job_scenario
           "Software Engineer, Acme, 2019-2021").
  - reflexivity.
  - simpl. left. reflexivity.
  - reflexivity.
  - reflexivity.
  - reflexivity.
  - simpl. left. reflexivity.
  - reflexivity.
Defined.

(** ** The education sub-score *)



(** C6: when the qualifications blob contains "pursuing" or "completed" and
    the education blob contains "bachelor" or "university", the education
    score is at least 18: it is the maximum of 18 and what the keyword rule
    and the empty-qualifications rule give alone, and in every case it is
    never below what those two rules give alone. *)
Theorem C6_status_rule (cv : CVData) (job : JobData) (sd : ScoreDetails) :
  calculate_match_score cv job = inr sd ->
  (Substring "pursuing" (job_qual_text job)
   \/ Substring "completed" (job_qual_text job) ->
   Substring "bachelor" (cv_edu_text cv)
   \/ Substring "university" (cv_edu_text cv) ->
   (18 <= education_score sd)%Q
   /\ (education_score sd
       == inject_Z (Z.max (edu_rules_1_3 cv job) 18))%Q)
  /\ (inject_Z (edu_rules_1_3 cv job) <= education_score sd)%Q.
Proof.
  intros H. apply calculate_match_score_inv in H.
  destruct H as [x [_ [_ [_ [He _]]]]].
  rewrite He, education_score_stored. split.
  - intros Hj Hc. rewrite (edu_subscore_status cv job Hj Hc). split.
    + change 18%Q with (inject_Z 18). rewrite <- Zle_Qle. lia.
    + reflexivity.
  - rewrite <- Zle_Qle. apply edu_rules_1_3_le.
Qed.

(** C6 on a profile that only the pursuing/completed rule rewards. *)
Lemma C6_status_rule_witness :
  exists sd,
    calculate_match_score Sample.cv_university Sample.job_completed = inr sd
    /\ (18 <= education_score sd)%Q
    /\ edu_rules_1_3 Sample.cv_university Sample.job_completed = 0%Z.
Proof.
  eexists. split; [reflexivity|]. split; [|reflexivity].
  apply (proj1 (C6_status_rule Sample.cv_university Sample.job_completed
                  _ eq_refl)).
  - right. apply str_in_spec. reflexivity.
  - right. apply str_in_spec. reflexivity.
Defined.

(** ** The education flag *)

(** C9: the education flag of a record is set exactly when its education
    score is positive.  It follows the score, not the keyword test: it is
    set when only the pursuing/completed rule fired, and clear for a
    candidate with relevant education when the job lists no
    qualifications. *)
Theorem C9_education_flag (cv : CVData) (job : JobData) (sd : ScoreDetails) :
  calculate_match_score cv job = inr sd ->
  (education_match_found sd = true <-> (0 < education_score sd)%Q)
  /\ (has_relevant_education (cv_edu_text Sample.cv_university) = false
      /\ exists sd',
           calculate_match_score Sample.cv_university Sample.job_completed
           = inr sd'
           /\ education_match_found sd' = true)
  /\ (has_relevant_education (cv_edu_text Sample.cv_scenario) = true
      /\ exists sd',
           calculate_match_score Sample.cv_scenario Sample.job_empty
           = inr sd'
           /\ education_match_found sd' = false).
Proof.
  intros H. apply calculate_match_score_inv in H.
  destruct H as [x [_ [_ [_ [He [_ [_ [_ [Hf _]]]]]]]]].
  split; [|split; split; try reflexivity; eexists; split; reflexivity].
  rewrite He, Hf, education_score_stored, Z.ltb_lt.
  change 0%Q with (inject_Z 0). now rewrite <- Zlt_Qlt.
Qed.

(** C9 at the end-to-end scenario. *)
Lemma C9_education_flag_witness :
  exists sd,
    calculate_match_score Sample.cv_scenario Sample.job_scenario = inr sd
    /\ (education_match_found sd = true <-> (0 < education_score sd)%Q).
Proof.
  eexists. split; [reflexivity|].
  apply (proj1 (C9_education_flag Sample.cv_scenario Sample.job_scenario
                  _ eq_refl)).
Defined.

(** ** The interpretation mapper *)

(** C7: [get_interpretation] maps every score of 80 or more to the
    "Excellent" text, every score from 60 to 79 to the "Good" text, every
    score from 40 to 59 to the "Moderate" text and every score of 39 or less
    to the "Low" text; so 80 is Excellent, 79 and 60 are Good, 59 and 40 are
    Moderate and 39 is Low. *)
Theorem C7_interpretation_bands (score : Z) :
  ((80 <= score)%Z ->
   get_interpretation score = "Excellent Match! Highly suitable candidate.")
  /\ ((60 <= score <= 79)%Z ->
      get_interpretation score
      = "Good Match! Suitable candidate with room for growth.")
  /\ ((40 <= score <= 59)%Z ->
      get_interpretation score
      = "Moderate Match. Some key skills may be missing.")
  /\ ((score <= 39)%Z ->
      get_interpretation score = "Low Match. Significant skill gaps present.")
  /\ get_interpretation 80 = "Excellent Match! Highly suitable candidate."
  /\ get_interpretation 79
     = "Good Match! Suitable candidate with room for growth."
  /\ get_interpretation 60
     = "Good Match! Suitable candidate with room for growth."
  /\ get_interpretation 59 = "Moderate Match. Some key skills may be missing."
  /\ get_interpretation 40 = "Moderate Match. Some key skills may be missing."
  /\ get_interpretation 39 = "Low Match. Significant skill gaps present.".
Proof.
  unfold get_interpretation.
  repeat split; try reflexivity; intros H;
    destruct (Z.leb_spec 80 score); try lia;
    destruct (Z.leb_spec 60 score); try lia;
    destruct (Z.leb_spec 40 score); try lia; reflexivity.
Qed.

(** C7 inside each of the four bands. *)
Lemma C7_interpretation_bands_witness :
  get_interpretation 93 = "Excellent Match! Highly suitable candidate."
  /\ get_interpretation 72
     = "Good Match! Suitable candidate with room for growth."
  /\ get_interpretation 41 = "Moderate Match. Some key skills may be missing."
  /\ get_interpretation 0 = "Low Match. Significant skill gaps present.".
Proof.
  split; [|split; [|split]].
  - apply (proj1 (C7_interpretation_bands 93)). lia.
  - apply (proj1 (proj2 (C7_interpretation_bands 72))). lia.
  - apply (proj1 (proj2 (proj2 (C7_interpretation_bands 41)))). lia.
  - apply (proj1 (proj2 (proj2 (proj2 (C7_interpretation_bands 0))))). lia.
Defined.

(** ** The orchestrator and the upload check *)

Section ServiceFacts.

Variables (datetime exn : Type) (str_of_exn : exn -> string).
Variable as_exn : exception -> exn.
Variable extract_text_from_pdf : string -> option string.
Variable extract_cv_details : string -> option CVData.
Variable extract_job_details : string -> option JobData.
Variables (now_result now_filename : datetime).
Variable strftime : datetime -> string.
Variable save_results_to_file :
  CVData -> JobData -> ScoreDetails -> exn + string.
Variable save_results_to_json : @MatchResult datetime -> string -> string.
Variable stage_uploads : string -> string -> exn + (string * string).

Local Notation "'run'" :=
  (match_cv_with_job datetime exn str_of_exn as_exn extract_text_from_pdf
     extract_cv_details extract_job_details now_result now_filename strftime
     save_results_to_file save_results_to_json).

Local Notation "'endpoint'" :=
  (match_cv_job datetime exn str_of_exn as_exn extract_text_from_pdf
     extract_cv_details extract_job_details now_result now_filename strftime
     save_results_to_file save_results_to_json stage_uploads).

Lemma no_text_false (text : option string) :
  no_text text = false <-> exists t, text = Some t /\ t <> "".
Proof.
  destruct text as [t|]; simpl.
  - rewrite String.eqb_neq. split.
    + intros H. now exists t.
    + intros [t' [E H]]. now inversion E.
  - split; [discriminate | intros [t [E _]]; discriminate].
Qed.

(** Every outcome of the orchestrator is one of five. *)
Lemma match_cv_with_job_cases (cv_path job_path : string) :
  ((no_text (extract_text_from_pdf cv_path) = true
    \/ no_text (extract_text_from_pdf job_path) = true)
   /\ run cv_path job_path
      = (None, Some "Failed to extract text from one or both PDF files"))
  \/ (exists cv_text job_text,
        extract_text_from_pdf cv_path = Some cv_text /\ cv_text <> ""
        /\ extract_text_from_pdf job_path = Some job_text /\ job_text <> ""
        /\ ((extract_cv_details cv_text = None
             \/ extract_job_details job_text = None)
            /\ run cv_path job_path
               = (None,
                  Some "Failed to extract data from CV or Job Description")
            \/ exists cv job,
                 extract_cv_details cv_text = Some cv
                 /\ extract_job_details job_text = Some job
                 /\ ((exists e,
                        calculate_match_score cv job = inl e
                        /\ run cv_path job_path
                           = (None, Some (str_of_exn (as_exn e))))
                     \/ exists sd,
                          calculate_match_score cv job = inr sd
                          /\ ((exists e,
                                 save_results_to_file cv job sd = inl e
                                 /\ run cv_path job_path
                                    = (None, Some (str_of_exn e)))
                              \/ (exists pdf_output,
                                    save_results_to_file cv job sd
                                    = inr pdf_output
                                    /\ run cv_path job_path
                                       = (Some (complete_result now_result
                                                  cv job sd),
                                          Some ("PDF: " ++ pdf_output
                                                ++ ", JSON: "
                                                ++ save_results_to_json
                                                     (complete_result
                                                        now_result cv job sd)
                                                     ("match_result_"
                                                      ++ strftime
                                                           now_filename)))))))).
Proof.
  unfold match_cv_with_job.
  destruct (extract_text_from_pdf cv_path) as [ct|] eqn:Ec;
    [|left; split; [left|]; reflexivity].
  destruct (extract_text_from_pdf job_path) as [jt|] eqn:Ej;
    [|left; split; [right|]; reflexivity].
  destruct (no_text (Some ct)) eqn:Nc;
    [left; split; [left|]; reflexivity|].
  destruct (no_text (Some jt)) eqn:Nj;
    [left; split; [right|]; reflexivity|].
  apply no_text_false in Nc, Nj.
  destruct Nc as [ct' [Ec' Hc]], Nj as [jt' [Ej' Hj]].
  inversion Ec'; inversion Ej'; subst ct' jt'.
  right. exists ct, jt. repeat (split; [assumption || reflexivity|]).
  simpl orb. cbv iota.
  destruct (extract_cv_details ct) as [cv|] eqn:Dc;
    [|left; split; [left|]; reflexivity].
  destruct (extract_job_details jt) as [job|] eqn:Dj;
    [|left; split; [right|]; reflexivity].
  right. exists cv, job. split; [reflexivity|]. split; [reflexivity|].
  destruct (calculate_match_score cv job) as [e | sd] eqn:Es.
  - left. exists e. now split.
  - right. exists sd. split; [reflexivity|]. cbv zeta.
    destruct (save_results_to_file cv job sd) as [e | pdf] eqn:Ep.
    + left. exists e. now split.
    + right. exists pdf. now split.
Qed.

(** C8, amended: the orchestrator is all-or-nothing.  If a text extraction
    returns nothing or empty text, or a structured extraction returns
    nothing, or the scorer or the report writer raises, it returns no result
    and one error message; if the extractions succeed, the scorer returns
    and the report is written, it returns the complete result; and whatever
    the collaborators do, it returns either no result with one message, or
    the complete result built from successful extractions, never a partial
    one. *)
Theorem C8_all_or_nothing (cv_path job_path : string) :
  (no_text (extract_text_from_pdf cv_path) = true
   \/ no_text (extract_text_from_pdf job_path) = true ->
   run cv_path job_path
   = (None, Some "Failed to extract text from one or both PDF files"))
  /\ (forall cv_text job_text,
        extract_text_from_pdf cv_path = Some cv_text -> cv_text <> "" ->
        extract_text_from_pdf job_path = Some job_text -> job_text <> "" ->
        extract_cv_details cv_text = None
        \/ extract_job_details job_text = None ->
        run cv_path job_path
        = (None, Some "Failed to extract data from CV or Job Description"))
  /\ (forall cv_text job_text cv job,
        extract_text_from_pdf cv_path = Some cv_text -> cv_text <> "" ->
        extract_text_from_pdf job_path = Some job_text -> job_text <> "" ->
        extract_cv_details cv_text = Some cv ->
        extract_job_details job_text = Some job ->
        (forall e,
           calculate_match_score cv job = inl e ->
           run cv_path job_path = (None, Some (str_of_exn (as_exn e))))
        /\ (forall sd e,
              calculate_match_score cv job = inr sd ->
              save_results_to_file cv job sd = inl e ->
              run cv_path job_path = (None, Some (str_of_exn e)))
        /\ (forall sd pdf_output,
              calculate_match_score cv job = inr sd ->
              save_results_to_file cv job sd = inr pdf_output ->
              exists message,
                run cv_path job_path
                = (Some (complete_result now_result cv job sd),
                   Some message)))
  /\ ((exists message, run cv_path job_path = (None, Some message))
      \/ (exists cv_text job_text cv job sd message,
            extract_text_from_pdf cv_path = Some cv_text /\ cv_text <> ""
            /\ extract_text_from_pdf job_path = Some job_text
            /\ job_text <> ""
            /\ extract_cv_details cv_text = Some cv
            /\ extract_job_details job_text = Some job
            /\ calculate_match_score cv job = inr sd
            /\ run cv_path job_path
               = (Some (complete_result now_result cv job sd),
                  Some message))).
Proof.
  pose proof (match_cv_with_job_cases cv_path job_path) as Hcases.
  split; [|split; [|split]].
  - intros Hfail.
    destruct Hcases as [[_ Hrun] | [ct [jt [Ec [Hc [Ej [Hj _]]]]]]];
      [assumption|].
    rewrite Ec, Ej in Hfail. simpl in Hfail.
    rewrite <- !String.eqb_neq in Hc, Hj. rewrite Hc, Hj in Hfail.
    destruct Hfail; discriminate.
  - intros ct jt Ec Hc Ej Hj Hfail.
    destruct Hcases as [[Hno _] | [ct' [jt' [Ec' [_ [Ej' [_ Hrest]]]]]]].
    + rewrite Ec, Ej in Hno. simpl in Hno.
      rewrite <- !String.eqb_neq in Hc, Hj. rewrite Hc, Hj in Hno.
      destruct Hno; discriminate.
    + rewrite Ec in Ec'. rewrite Ej in Ej'.
      inversion Ec'; inversion Ej'; subst ct' jt'.
      destruct Hrest as [[_ Hrun] | [cv [job [Dc [Dj _]]]]]; [assumption|].
      destruct Hfail as [H | H]; congruence.
  - intros ct jt cv job Ec Hc Ej Hj Dc Dj.
    assert (Hrest :
      (exists e, calculate_match_score cv job = inl e
                 /\ run cv_path job_path
                    = (None, Some (str_of_exn (as_exn e))))
      \/ exists sd,
           calculate_match_score cv job = inr sd
           /\ ((exists e, save_results_to_file cv job sd = inl e
                          /\ run cv_path job_path
                             = (None, Some (str_of_exn e)))
               \/ (exists pdf_output,
                     save_results_to_file cv job sd = inr pdf_output
                     /\ exists message,
                          run cv_path job_path
                          = (Some (complete_result now_result cv job sd),
                             Some message)))).
    { destruct Hcases as [[Hno _] | [ct' [jt' [Ec' [_ [Ej' [_ Hrest]]]]]]].
      - rewrite Ec, Ej in Hno. simpl in Hno.
        rewrite <- !String.eqb_neq in Hc, Hj. rewrite Hc, Hj in Hno.
        destruct Hno; discriminate.
      - rewrite Ec in Ec'. rewrite Ej in Ej'.
        inversion Ec'; inversion Ej'; subst ct' jt'.
        destruct Hrest as [[[H | H] _] | [cv' [job' [Dc' [Dj' Hscore]]]]];
          try congruence.
        rewrite Dc in Dc'. rewrite Dj in Dj'.
        inversion Dc'; inversion Dj'; subst cv' job'.
        destruct Hscore as [Herr | [sd [Es [Hw | [pdf [Ep Hrun]]]]]].
        + now left.
        + right. exists sd. split; [assumption|]. now left.
        + right. exists sd. split; [assumption|]. right.
          exists pdf. split; [assumption|]. eexists. exact Hrun. }
    split; [|split].
    + intros e Es.
      destruct Hrest as [[e' [Es' Hrun]] | [sd [Es' _]]]; congruence.
    + intros sd e Es Ep.
      destruct Hrest as [[e' [Es' _]] | [sd' [Es' Hw]]]; [congruence|].
      assert (sd' = sd) by congruence. subst sd'.
      destruct Hw as [[e' [Ep' Hrun]] | [pdf [Ep' _]]]; congruence.
    + intros sd pdf Es Ep.
      destruct Hrest as [[e' [Es' _]] | [sd' [Es' Hw]]]; [congruence|].
      assert (sd' = sd) by congruence. subst sd'.
      destruct Hw as [[e' [Ep' _]] | [pdf' [_ Hrun]]]; [congruence|].
      exact Hrun.
  - destruct Hcases as [[_ Hrun] | [ct [jt [Ec [Hc [Ej [Hj Hrest]]]]]]].
    + left. eexists. exact Hrun.
    + destruct Hrest as [[_ Hrun] | [cv [job [Dc [Dj Hscore]]]]].
      * left. eexists. exact Hrun.
      * destruct Hscore as [[e [_ Hrun]] | [sd [Es Hw]]].
        -- left. eexists. exact Hrun.
        -- destruct Hw as [[e [_ Hrun]] | [pdf [_ Hrun]]].
           ++ left. eexists. exact Hrun.
           ++ right. exists ct, jt, cv, job, sd. eexists.
              repeat (split; [assumption|]). exact Hrun.
Qed.

(** The upload check accepts exactly the names whose lowercase form ends
    with ".pdf". *)
Lemma is_pdf_name_spec (filename : string) :
  is_pdf_name filename = true
  <-> exists stem, lower filename = stem ++ ".pdf".
Proof. apply endswith_spec. Qed.

(** C10: the endpoint answers with HTTP status 400 exactly when the
    lowercase name of one of the two uploads does not end with ".pdf", so
    the check ignores the case of the extension ("resume.PDF" and
    "resume.Pdf" pass it); the rejection is decided on the names alone,
    whatever staging and matching would do. *)
Theorem C10_pdf_extension_check (cv_filename job_filename : string) :
  ((exists detail,
      endpoint cv_filename job_filename = HTTPException 400 detail)
   <-> (~ (exists stem, lower cv_filename = stem ++ ".pdf")
        \/ ~ (exists stem, lower job_filename = stem ++ ".pdf")))
  /\ (is_pdf_name cv_filename = false ->
      endpoint cv_filename job_filename
      = HTTPException 400 "CV file must be a PDF")
  /\ (is_pdf_name cv_filename = true -> is_pdf_name job_filename = false ->
      endpoint cv_filename job_filename
      = HTTPException 400 "Job file must be a PDF")
  /\ is_pdf_name "resume.PDF" = true
  /\ is_pdf_name "resume.Pdf" = true
  /\ is_pdf_name "resume.pdf.txt" = false.
Proof.
  split; [|repeat split].
  - rewrite <- !is_pdf_name_spec. unfold match_cv_job.
    destruct (is_pdf_name cv_filename) eqn:Ecv; simpl.
    + destruct (is_pdf_name job_filename) eqn:Ejob; simpl.
      * split.
        -- intros [detail H].
           destruct (stage_uploads cv_filename job_filename)
             as [e | [cv_path job_path]]; [discriminate|].
           destruct (run cv_path job_path) as [[r|] msg]; discriminate.
        -- intros [H | H]; congruence.
      * split; [intros _; right; congruence | intros _; eexists; reflexivity].
    + split; [intros _; left; congruence | intros _; eexists; reflexivity].
  - intros H. unfold match_cv_job. now rewrite H.
  - intros Hc Hj. unfold match_cv_job. now rewrite Hc, Hj.
Qed.

End ServiceFacts.

(** C8, as stated, fails: with every extractor succeeding, a report writer
    that raises leaves the orchestrator without a result. *)
Lemma C8_extractors_succeed_without_result :
  Sample.pdf_text "cv.pdf" = Some "text of cv.pdf"
  /\ Sample.pdf_text "job.pdf" = Some "text of job.pdf"
  /\ Sample.cv_of_text "text of cv.pdf" = Some Sample.cv_scenario
  /\ Sample.job_of_text "text of job.pdf" = Some Sample.job_scenario
  /\ match_cv_with_job Z unit Sample.describe Sample.as_unit Sample.pdf_text
       Sample.cv_of_text Sample.job_of_text 0%Z 0%Z Sample.stamp
       Sample.failing_pdf Sample.write_json "cv.pdf" "job.pdf"
     = (None, Some "error").
Proof. repeat split. Qed.

(** C8 with collaborators that all succeed. *)
Lemma C8_all_or_nothing_witness :
  exists sd message,
    calculate_match_score Sample.cv_scenario Sample.job_scenario = inr sd
    /\ match_cv_with_job Z unit Sample.describe Sample.as_unit
         Sample.pdf_text Sample.cv_of_text Sample.job_of_text 0%Z 0%Z
         Sample.stamp Sample.write_pdf Sample.write_json "cv.pdf" "job.pdf"
       = (Some (complete_result 0%Z Sample.cv_scenario Sample.job_scenario
                  sd),
          Some message).
Proof.
  eexists.
  destruct (proj2 (proj2 (proj1 (proj2 (proj2
              (C8_all_or_nothing Z unit Sample.describe Sample.as_unit
                 Sample.pdf_text Sample.cv_of_text Sample.job_of_text
                 0%Z 0%Z Sample.stamp Sample.write_pdf Sample.write_json
                 "cv.pdf" "job.pdf")))
              "text of cv.pdf" "text of job.pdf" Sample.cv_scenario
              Sample.job_scenario eq_refl ltac:(discriminate) eq_refl
              ltac:(discriminate) eq_refl eq_refl))
            _ "output/match_result_20240101_000000.pdf" eq_refl eq_refl)
    as [message Hrun].
  exists message. split; [reflexivity | exact Hrun].
Defined.

(** C10 on an upload that is not a PDF by name. *)
Lemma C10_pdf_extension_check_witness :
  match_cv_job Z unit Sample.describe Sample.as_unit Sample.pdf_text
    Sample.cv_of_text Sample.job_of_text 0%Z 0%Z Sample.stamp
    Sample.write_pdf Sample.write_json Sample.stage "resume.docx" "job.pdf"
  = HTTPException 400 "CV file must be a PDF".
Proof.
  apply (proj1 (proj2
           (C10_pdf_extension_check Z unit Sample.describe Sample.as_unit
              Sample.pdf_text Sample.cv_of_text Sample.job_of_text 0%Z 0%Z
              Sample.stamp Sample.write_pdf Sample.write_json Sample.stage
              "resume.docx" "job.pdf"))).
  reflexivity.
Defined.
(** ** Further facts about the skill sub-score *)

Section SkillFacts.

Local Open Scope Q_scope.

Lemma filter_length_all {A : Type} (p : A -> bool) (l : list A) :
  List.length (filter p l) = List.length l <-> forallb p l = true.
Proof.
  induction l as [|a l IH]; simpl; [tauto|].
  pose proof (filter_length_le p l) as Hle.
  destruct (p a); simpl.
  - rewrite <- IH. lia.
  - split; [lia | discriminate].
Qed.

Lemma filter_length_none {A : Type} (p : A -> bool) (l : list A) :
  List.length (filter p l) = 0%nat <-> existsb p l = false.
Proof.
  induction l as [|a l IH]; simpl; [tauto|].
  destruct (p a); simpl; [split; discriminate | assumption].
Qed.

(** Line 117 on the two counts: the quotient is rounded, and so is its
    product with 70. *)
Lemma skill_ratio (m n : nat) :
  py_mul (py_truediv (Z.of_nat m) (Z.of_nat n)) (PyInt 70)
  = PyFloat (float_round
               (float_round (inject_Z (Z.of_nat m) / inject_Z (Z.of_nat n))
                * 70)).
Proof. unfold py_truediv. now rewrite (py_mul_float_int _ 70 exact_70). Qed.

Lemma count_ratio_nonneg (m n : nat) :
  (0 < n)%nat -> 0 <= inject_Z (Z.of_nat m) / inject_Z (Z.of_nat n).
Proof.
  intros Hn. apply Qle_shift_div_l.
  - change 0 with (inject_Z 0). rewrite <- Zlt_Qlt. lia.
  - rewrite Qmult_0_l. change 0 with (inject_Z 0). rewrite <- Zle_Qle. lia.
Qed.

Lemma count_ratio_mono (m m' n : nat) :
  (m <= m')%nat -> (0 < n)%nat ->
  inject_Z (Z.of_nat m) / inject_Z (Z.of_nat n)
  <= inject_Z (Z.of_nat m') / inject_Z (Z.of_nat n).
Proof.
  intros Hm Hn. unfold Qdiv. apply Qmult_le_compat_r.
  - rewrite <- Zle_Qle. lia.
  - apply Qinv_le_0_compat. change 0 with (inject_Z 0).
    rewrite <- Zle_Qle. lia.
Qed.

(** The rounded ratio times 70, rounded, preserves the order of the
    numerators. *)
Lemma ratio_70_mono (m m' n : nat) :
  (m <= m')%nat -> (0 < n)%nat ->
  float_round (float_round (inject_Z (Z.of_nat m) / inject_Z (Z.of_nat n))
               * 70)
  <= float_round (float_round (inject_Z (Z.of_nat m')
                               / inject_Z (Z.of_nat n)) * 70).
Proof.
  intros Hm Hn.
  pose proof (count_ratio_nonneg m n Hn) as H0.
  pose proof (count_ratio_mono m m' n Hm Hn) as H1.
  pose proof (float_round_nonneg _ H0) as F0.
  pose proof (float_round_mono _ _ H0 H1) as F1.
  apply float_round_mono; lra.
Qed.

(** Equal counts give exactly 70. *)
Lemma ratio_70_full (n : nat) :
  (0 < n)%nat ->
  float_round (float_round (inject_Z (Z.of_nat n) / inject_Z (Z.of_nat n))
               * 70) == 70.
Proof.
  intros Hn.
  assert (E1 : inject_Z (Z.of_nat n) / inject_Z (Z.of_nat n) == 1).
  { apply Qmult_inv_r. intros E.
    unfold Qeq, inject_Z in E. cbn [Qnum Qden] in E. lia. }
  assert (E2 : float_round (inject_Z (Z.of_nat n) / inject_Z (Z.of_nat n))
               == 1).
  { rewrite (float_round_comp _ 1 (count_ratio_nonneg n n Hn) E1).
    now vm_compute. }
  rewrite (float_round_comp _ 70); [now vm_compute | lra | lra].
Qed.

(** A numerator of 0 gives exactly 0. *)
Lemma ratio_70_zero (n : nat) :
  float_round (float_round (inject_Z (Z.of_nat 0) / inject_Z (Z.of_nat n))
               * 70) == 0.
Proof.
  assert (E1 : inject_Z (Z.of_nat 0) / inject_Z (Z.of_nat n) == 0).
  { unfold Qdiv. simpl inject_Z. apply Qmult_0_l. }
  assert (E2 : float_round (inject_Z (Z.of_nat 0) / inject_Z (Z.of_nat n))
               == 0).
  { rewrite (float_round_comp _ 0); [now vm_compute | lra | exact E1]. }
  rewrite (float_round_comp _ 0); [now vm_compute | lra | lra].
Qed.

(** Below [2^53] required skills, a smaller numerator stays below 70 and a
    positive one above 0. *)
Lemma ratio_70_below (m n : nat) :
  (m < n)%nat -> (Z.of_nat n <= exact_count_limit)%Z ->
  float_round (float_round (inject_Z (Z.of_nat m) / inject_Z (Z.of_nat n))
               * 70) < 70.
Proof.
  intros Hm Hn.
  assert (Hpos : (0 < n)%nat) by lia.
  pose proof (count_ratio_nonneg m n Hpos) as H0.
  assert (H1 : inject_Z (Z.of_nat m) / inject_Z (Z.of_nat n)
               <= 9007199254740991 # 9007199254740992).
  { apply Qle_shift_div_r.
    - change 0 with (inject_Z 0). rewrite <- Zlt_Qlt. lia.
    - unfold exact_count_limit in Hn.
      change (2 ^ 53)%Z with 9007199254740992%Z in Hn.
      unfold Qle, Qmult, inject_Z. cbn [Qnum Qden].
      rewrite Pos.mul_1_r. lia. }
  pose proof (float_round_nonneg _ H0) as F0.
  pose proof (float_round_mono _ _ H0 H1) as F1.
  assert (C1 : float_round (9007199254740991 # 9007199254740992)
               = 9007199254740991 # 9007199254740992)
    by (vm_compute; reflexivity).
  rewrite C1 in F1.
  assert (F2 : float_round
                 (float_round (inject_Z (Z.of_nat m) / inject_Z (Z.of_nat n))
                  * 70)
               <= float_round ((9007199254740991 # 9007199254740992) * 70))
    by (apply float_round_mono; lra).
  assert (C2 : float_round ((9007199254740991 # 9007199254740992) * 70) < 70)
    by (vm_compute; reflexivity).
  lra.
Qed.

Lemma ratio_70_pos (m n : nat) :
  (0 < m)%nat -> (0 < n)%nat -> (Z.of_nat n <= exact_count_limit)%Z ->
  0 < float_round (float_round (inject_Z (Z.of_nat m)
                                / inject_Z (Z.of_nat n)) * 70).
Proof.
  intros Hm Hpos Hn.
  assert (H1 : 1 # 9007199254740992
               <= inject_Z (Z.of_nat m) / inject_Z (Z.of_nat n)).
  { apply Qle_shift_div_l.
    - change 0 with (inject_Z 0). rewrite <- Zlt_Qlt. lia.
    - unfold exact_count_limit in Hn.
      change (2 ^ 53)%Z with 9007199254740992%Z in Hn.
      unfold Qle, Qmult, inject_Z. cbn [Qnum Qden].
      rewrite Pos.mul_1_r. lia. }
  assert (F1 : float_round (1 # 9007199254740992)
               <= float_round (inject_Z (Z.of_nat m)
                               / inject_Z (Z.of_nat n)))
    by (apply float_round_mono; [discriminate | exact H1]).
  assert (C1 : float_round (1 # 9007199254740992) = 1 # 9007199254740992)
    by (vm_compute; reflexivity).
  rewrite C1 in F1.
  assert (F2 : float_round ((1 # 9007199254740992) * 70)
               <= float_round
                    (float_round (inject_Z (Z.of_nat m)
                                  / inject_Z (Z.of_nat n)) * 70))
    by (apply float_round_mono; lra).
  assert (C2 : 0 < float_round ((1 # 9007199254740992) * 70))
    by (vm_compute; reflexivity).
  lra.
Qed.

Lemma required_nonempty (job : JobData) :
  required_skills job <> [] ->
  (0 <? List.length (normalize (required_skills job)))%nat = true.
Proof.
  intros H. rewrite length_normalize.
  destruct (required_skills job); [congruence | reflexivity].
Qed.

Lemma forallb_skill_matched (cv_skills required : list string) :
  forallb (skill_matched cv_skills) required = true
  <-> Forall (SkillMatches cv_skills) required.
Proof.
  rewrite forallb_forall, Forall_forall.
  split; intros H r Hr; apply skill_matched_spec, H, Hr.
Qed.

Lemma existsb_skill_matched (cv_skills required : list string) :
  existsb (skill_matched cv_skills) required = false
  <-> Forall (fun r => ~ SkillMatches cv_skills r) required.
Proof.
  rewrite Forall_forall. split.
  - intros H r Hr Hm. apply skill_matched_spec in Hm.
    assert (existsb (skill_matched cv_skills) required = true)
      by (apply existsb_exists; now exists r).
    congruence.
  - intros H. destruct (existsb (skill_matched cv_skills) required) eqn:E;
      [|reflexivity].
    apply existsb_exists in E. destruct E as [r [Hr Hm]].
    apply skill_matched_spec in Hm. now destruct (H r Hr).
Qed.

(** A returned record never reports more matched skills than required
    ones, and the required count is the length of the job's list. *)
Theorem skill_counts_consistent (cv : CVData) (job : JobData)
  (sd : ScoreDetails) :
  calculate_match_score cv job = inr sd ->
  (skill_matches sd <= total_required_skills sd)%nat
  /\ total_required_skills sd = List.length (required_skills job).
Proof.
  intros H. apply calculate_match_score_inv in H.
  destruct H as [x [_ [_ [_ [_ [_ [Hm [Ht _]]]]]]]].
  rewrite Hm, Ht. split.
  - destruct (0 <? List.length (normalize (required_skills job)))%nat;
      [apply count_skill_matches_le | lia].
  - apply length_normalize.
Qed.

Lemma skill_counts_consistent_witness :
  exists sd,
    calculate_match_score Sample.cv_scenario Sample.job_scenario = inr sd
    /\ (skill_matches sd <= total_required_skills sd)%nat
    /\ total_required_skills sd = 3%nat.
Proof.
  eexists. split; [reflexivity|].
  apply (skill_counts_consistent Sample.cv_scenario Sample.job_scenario _
           eq_refl).
Defined.

Lemma skill_subscore_full_iff_core (cv : CVData) (job : JobData) :
  required_skills job <> [] ->
  (Z.of_nat (List.length (required_skills job)) <= exact_count_limit)%Z ->
  (value (skill_subscore cv job) == 70
   <-> Forall (SkillMatches (normalize (skills cv)))
         (normalize (required_skills job))).
Proof.
  intros Hreq Hlim. unfold skill_subscore.
  pose proof (required_nonempty job Hreq) as Hpos. rewrite Hpos.
  apply Nat.ltb_lt in Hpos.
  rewrite skill_ratio. cbn [value].
  rewrite <- forallb_skill_matched, <- filter_length_all.
  rewrite <- count_skill_matches_filter.
  rewrite <- (length_normalize (required_skills job)) in Hlim.
  pose proof (count_skill_matches_le (normalize (skills cv))
                (normalize (required_skills job))) as Hle.
  split.
  - intros H.
    destruct (Nat.eq_dec
                (count_skill_matches (normalize (skills cv))
                   (normalize (required_skills job)))
                (List.length (normalize (required_skills job))))
      as [E | N]; [assumption|].
    assert (Hm : (count_skill_matches (normalize (skills cv))
                    (normalize (required_skills job))
                  < List.length (normalize (required_skills job)))%nat)
      by lia.
    pose proof (ratio_70_below _ _ Hm Hlim) as Hlt. lra.
  - intros E. rewrite E. now apply ratio_70_full.
Qed.

(** With at least one and at most [2^53] required skills, the skill
    sub-score reaches 70 exactly when every required skill is matched. *)
Theorem skill_subscore_full_iff (cv : CVData) (job : JobData) :
  required_skills job <> [] ->
  (Z.of_nat (List.length (required_skills job)) <= exact_count_limit)%Z ->
  (value (skill_subscore cv job) == 70
   <-> Forall (SkillMatches (normalize (skills cv)))
         (normalize (required_skills job))).
Proof. exact (skill_subscore_full_iff_core cv job). Qed.

Lemma skill_subscore_full_iff_witness :
  value (skill_subscore Sample.cv_scenario
           (mkJobData ["python"; "sql"] [] "")) == 70.
Proof.
  apply (proj2 (skill_subscore_full_iff Sample.cv_scenario
                  (mkJobData ["python"; "sql"] [] "")
                  ltac:(discriminate) ltac:(discriminate))).
  apply forallb_skill_matched. reflexivity.
Defined.

Lemma skill_subscore_zero_iff_core (cv : CVData) (job : JobData) :
  (Z.of_nat (List.length (required_skills job)) <= exact_count_limit)%Z ->
  (value (skill_subscore cv job) == 0
   <-> Forall (fun r => ~ SkillMatches (normalize (skills cv)) r)
         (normalize (required_skills job))).
Proof.
  intros Hlim. unfold skill_subscore.
  rewrite <- (length_normalize (required_skills job)) in Hlim.
  destruct (0 <? List.length (normalize (required_skills job)))%nat eqn:Hpos.
  - apply Nat.ltb_lt in Hpos. rewrite skill_ratio. cbn [value].
    rewrite <- existsb_skill_matched, <- filter_length_none.
    rewrite <- count_skill_matches_filter. split.
    + intros H.
      destruct (count_skill_matches (normalize (skills cv))
                  (normalize (required_skills job))) as [|k] eqn:E;
        [reflexivity|].
      pose proof (ratio_70_pos (S k) _ (Nat.lt_0_succ k) Hpos Hlim) as Hlt.
      lra.
    + intros E. rewrite E. apply ratio_70_zero.
  - apply Nat.ltb_ge in Hpos.
    destruct (normalize (required_skills job)); [|simpl in Hpos; lia].
    split; [constructor | reflexivity].
Qed.

(** With at most [2^53] required skills, the skill sub-score is 0 exactly
    when no required skill is matched (in particular when none is
    required). *)
Theorem skill_subscore_zero_iff (cv : CVData) (job : JobData) :
  (Z.of_nat (List.length (required_skills job)) <= exact_count_limit)%Z ->
  (value (skill_subscore cv job) == 0
   <-> Forall (fun r => ~ SkillMatches (normalize (skills cv)) r)
         (normalize (required_skills job))).
Proof. exact (skill_subscore_zero_iff_core cv job). Qed.

Lemma skill_subscore_zero_iff_witness :
  value (skill_subscore Sample.cv_scenario
           (mkJobData ["cobol"] [] "")) == 0.
Proof.
  apply (proj2 (skill_subscore_zero_iff Sample.cv_scenario
                  (mkJobData ["cobol"] [] "") ltac:(discriminate))).
  apply existsb_skill_matched. reflexivity.
Defined.

End SkillFacts.

(** ** Adding candidate skills *)

Section SkillMonotone.

Local Open Scope Q_scope.

Lemma skill_matched_incl (a b : list string) (r : string) :
  incl a b -> skill_matched a r = true -> skill_matched b r = true.
Proof.
  intros Hincl. unfold skill_matched. rewrite !existsb_exists.
  intros [c [Hin H]]. exists c. split; [now apply Hincl | assumption].
Qed.

Lemma filter_length_mono {A : Type} (p q : A -> bool) (l : list A) :
  (forall x, p x = true -> q x = true) ->
  (List.length (filter p l) <= List.length (filter q l))%nat.
Proof.
  intros Hpq. induction l as [|a l IH]; simpl; [lia|].
  destruct (p a) eqn:Ep.
  - rewrite (Hpq a Ep). simpl. lia.
  - destruct (q a); simpl; lia.
Qed.

Lemma count_skill_matches_incl (a b required : list string) :
  incl a b ->
  (count_skill_matches (normalize a) required
   <= count_skill_matches (normalize b) required)%nat.
Proof.
  intros Hincl. rewrite !count_skill_matches_filter.
  apply filter_length_mono. intros r. apply skill_matched_incl.
  unfold normalize. now apply incl_map.
Qed.

Lemma skill_subscore_incl (cv cv' : CVData) (job : JobData) :
  incl (skills cv) (skills cv') ->
  value (skill_subscore cv job) <= value (skill_subscore cv' job).
Proof.
  intros Hincl. unfold skill_subscore.
  destruct (0 <? List.length (normalize (required_skills job)))%nat eqn:Hpos;
    [|apply Qle_refl].
  apply Nat.ltb_lt in Hpos. rewrite !skill_ratio. cbn [value].
  apply ratio_70_mono; [|assumption]. now apply count_skill_matches_incl.
Qed.

(** A [float] plus a number is the rounded sum. *)
Lemma py_add_float (f : Q) (b : number) :
  py_add (PyFloat f) b = PyFloat (float_round (f + to_float b)).
Proof. now destruct b. Qed.

(** The total of line 181 preserves the order of the skill sub-scores. *)
Lemma total_monotone (s s' : number) (e : Z) (x : number) :
  (exists f f', s = PyFloat f /\ s' = PyFloat f' /\ 0 <= f /\ f <= f')
  \/ s = s' ->
  0 <= to_float (PyInt e) -> 0 <= to_float x ->
  (py_round (py_add (py_add s (PyInt e)) x)
   <= py_round (py_add (py_add s' (PyInt e)) x))%Z.
Proof.
  intros [[f [f' [-> [-> [H0 H1]]]]] | ->] He Hx; [|lia].
  rewrite !py_add_float. cbn [py_round].
  revert He Hx. generalize (to_float (PyInt e)), (to_float x).
  intros E X He Hx.
  assert (G0 : 0 <= float_round (f + E)) by (apply float_round_nonneg; lra).
  assert (G1 : float_round (f + E) <= float_round (f' + E))
    by (apply float_round_mono; lra).
  apply round_half_even_monotone. apply float_round_mono; lra.
Qed.

(** A candidate who lists every skill of another candidate, with the same
    education and experience, is scored whenever the other is, and has at
    least the same skill sub-score, matched-skill count and total score
    against any job. *)
Theorem more_skills_never_lower_score (cv cv' : CVData) (job : JobData)
  (sd : ScoreDetails) :
  incl (skills cv) (skills cv') ->
  education cv' = education cv ->
  experience cv' = experience cv ->
  calculate_match_score cv job = inr sd ->
  exists sd',
    calculate_match_score cv' job = inr sd'
    /\ value (skill_subscore cv job) <= value (skill_subscore cv' job)
    /\ (skill_matches sd <= skill_matches sd')%nat
    /\ (total_score sd <= total_score sd')%Z.
Proof.
  intros Hincl Hedu Hexp Hsd.
  apply calculate_match_score_inv in Hsd.
  destruct Hsd as [x [Hx [Ht [_ [_ [_ [Hm _]]]]]]].
  assert (He : edu_subscore cv' job = edu_subscore cv job).
  { unfold edu_subscore, cv_edu_text. now rewrite Hedu. }
  assert (Hx' : experience_subscore cv' job = inr x).
  { rewrite <- Hx.
    unfold experience_subscore, has_relevant_exp, cv_exp_text.
    now rewrite Hexp. }
  unfold calculate_match_score at 1. rewrite Hx'.
  eexists. split; [reflexivity|].
  cbn [skill_matches total_score]. rewrite Ht, Hm, He.
  split; [now apply skill_subscore_incl|]. split.
  - destruct (0 <? List.length (normalize (required_skills job)))%nat;
      [|lia].
    now apply count_skill_matches_incl.
  - apply total_monotone.
    + unfold skill_subscore.
      destruct (0 <? List.length (normalize (required_skills job)))%nat
        eqn:Hpos; [|now right].
      apply Nat.ltb_lt in Hpos. left. rewrite !skill_ratio.
      eexists. eexists. split; [reflexivity|]. split; [reflexivity|].
      split.
      * apply float_round_nonneg.
        pose proof (count_ratio_nonneg
                      (count_skill_matches (normalize (skills cv))
                         (normalize (required_skills job)))
                      _ Hpos) as H0.
        pose proof (float_round_nonneg _ H0). lra.
      * apply ratio_70_mono; [|assumption].
        now apply count_skill_matches_incl.
    + exact (proj1 (to_float_range _ 20 exact_20
                      (edu_subscore_range cv job))).
    + exact (proj1 (to_float_range _ 10 exact_10
                      (experience_subscore_range cv job x Hx))).
Qed.

Lemma more_skills_never_lower_score_witness :
  exists sd sd',
    calculate_match_score Sample.cv_four_skills Sample.job_eleven_skills
    = inr sd
    /\ calculate_match_score
         (mkCVData "Ada" ["e"; "a"; "b"; "c"; "d"] [] [])
         Sample.job_eleven_skills = inr sd'
    /\ (total_score sd <= total_score sd')%Z.
Proof.
  eexists.
  destruct (more_skills_never_lower_score Sample.cv_four_skills
              (mkCVData "Ada" ["e"; "a"; "b"; "c"; "d"] [] [])
              Sample.job_eleven_skills _
              ltac:(intros s Hs; right; exact Hs) eq_refl eq_refl eq_refl)
    as [sd' [Hsd' [_ [_ Ht]]]].
  exists sd'. split; [reflexivity|]. split; assumption.
Defined.

Lemma skill_subscore_all_matched (cv : CVData) (job : JobData) :
  required_skills job <> [] ->
  forallb (skill_matched (normalize (skills cv)))
    (normalize (required_skills job)) = true ->
  value (skill_subscore cv job) == 70.
Proof.
  intros Hreq Hall. unfold skill_subscore.
  pose proof (required_nonempty job Hreq) as Hpos. rewrite Hpos.
  apply Nat.ltb_lt in Hpos. rewrite skill_ratio. cbn [value].
  apply filter_length_all in Hall.
  rewrite count_skill_matches_filter, Hall. now apply ratio_70_full.
Qed.

(** A candidate skill that is blank (empty or whitespace only) matches every
    required skill: with at least one required skill the skill sub-score is
    then the full 70, and a returned record counts every required skill as
    matched. *)
Theorem blank_candidate_skill_matches_all (cv : CVData) (job : JobData)
  (s : string) (sd : ScoreDetails) :
  In s (skills cv) -> blank s = true -> required_skills job <> [] ->
  calculate_match_score cv job = inr sd ->
  value (skill_subscore cv job) == 70
  /\ skill_matches sd = List.length (required_skills job).
Proof.
  intros Hin Hblank Hreq Hsd.
  assert (Hempty : In "" (normalize (skills cv))).
  { replace "" with (strip (lower s)).
    - unfold normalize. now apply (in_map (fun x => strip (lower x))).
    - apply strip_nil_blank. now rewrite blank_lower. }
  assert (Hall : forallb (skill_matched (normalize (skills cv)))
                   (normalize (required_skills job)) = true).
  { apply forallb_forall. intros r _. apply skill_matched_spec.
    exists "". split; [assumption|]. right. now exists "", r. }
  split.
  - now apply skill_subscore_all_matched.
  - apply calculate_match_score_inv in Hsd.
    destruct Hsd as [x [_ [_ [_ [_ [_ [Hm _]]]]]]]. rewrite Hm.
    rewrite (required_nonempty job Hreq), count_skill_matches_filter.
    rewrite <- (length_normalize (required_skills job)).
    now apply filter_length_all.
Qed.

Lemma blank_candidate_skill_matches_all_witness :
  value (skill_subscore (mkCVData "Ada" [" "] [] [])
           Sample.job_eleven_skills) == 70.
Proof.
  eapply (blank_candidate_skill_matches_all
            (mkCVData "Ada" [" "] [] []) Sample.job_eleven_skills " ").
  - left. reflexivity.
  - reflexivity.
  - discriminate.
  - reflexivity.
Defined.

End SkillMonotone.

(** ** Further facts about the education and experience sub-scores *)

Section SubscoreFacts.

Local Open Scope Q_scope.

(** The education score of a returned record is one of 0, 15, 18 and 20,
    and it is 18 only when the pursuing/completed rule applies. *)
Theorem education_score_values (cv : CVData) (job : JobData)
  (sd : ScoreDetails) :
  calculate_match_score cv job = inr sd ->
  (education_score sd == 0 \/ education_score sd == 15
   \/ education_score sd == 18 \/ education_score sd == 20)
  /\ (education_score sd == 18 ->
      (Substring "pursuing" (job_qual_text job)
       \/ Substring "completed" (job_qual_text job))
      /\ (Substring "bachelor" (cv_edu_text cv)
          \/ Substring "university" (cv_edu_text cv))).
Proof.
  intros Hsd. apply calculate_match_score_inv in Hsd.
  destruct Hsd as [x [_ [_ [_ [He _]]]]].
  rewrite He, education_score_stored. split.
  - destruct (edu_subscore_values cv job) as [E | [E | [E | E]]];
      rewrite E; [left | right; left | right; right; left
                  | right; right; right]; reflexivity.
  - intros H. unfold Qeq, inject_Z in H. cbn [Qnum Qden] in H.
    assert (H18 : edu_subscore cv job = 18%Z) by lia. clear H.
    revert H18. unfold edu_subscore.
    destruct (0 <? List.length (normalize (qualifications job)))%nat;
      [|discriminate].
    cbv zeta. unfold edu_status_rule.
    rewrite <- !str_in_spec, <- !orb_true_iff.
    destruct (str_in "pursuing" (job_qual_text job)
              || str_in "completed" (job_qual_text job));
      destruct (str_in "bachelor" (cv_edu_text cv)
                || str_in "university" (cv_edu_text cv));
      try (intros _; split; reflexivity);
      destruct (edu_keyword_score_values (cv_edu_text cv)
                  (job_qual_text job)) as [E | [E | E]];
      rewrite E; discriminate.
Qed.

Lemma education_score_values_witness :
  (Substring "pursuing" (job_qual_text Sample.job_completed)
   \/ Substring "completed" (job_qual_text Sample.job_completed))
  /\ (Substring "bachelor" (cv_edu_text Sample.cv_university)
      \/ Substring "university" (cv_edu_text Sample.cv_university)).
Proof.
  eapply (proj2 (education_score_values Sample.cv_university
                   Sample.job_completed _ eq_refl)).
  reflexivity.
Defined.

Lemma some_entry_not_blank (l : list string) :
  negb (forallb blank l) = true <-> exists e, In e l /\ blank e = false.
Proof.
  induction l as [|a l IH]; simpl.
  - split; [discriminate | intros [e [[] _]]].
  - rewrite negb_andb, orb_true_iff, IH, negb_true_iff. split.
    + intros [H | [e [Hin H]]]; [now exists a; auto | exists e; auto].
    + intros [e [[<- | Hin] H]]; [now left | right; now exists e].
Qed.

(** Line 172 on the entry count and the required years: the quotient is
    rounded, and so is its product with 10. *)
Lemma experience_ratio (n years : Z) :
  py_mul (py_truediv n years) (PyInt 10)
  = PyFloat (float_round (float_round (inject_Z n / inject_Z years) * 10)).
Proof. unfold py_truediv. now rewrite (py_mul_float_int _ 10 exact_10). Qed.

Lemma ratio_10_full (n years : Z) :
  (0 < years <= n)%Z ->
  10 <= float_round (float_round (inject_Z n / inject_Z years) * 10).
Proof.
  intros Hy.
  assert (H1 : 1 <= inject_Z n / inject_Z years).
  { apply Qle_shift_div_l.
    - change 0 with (inject_Z 0). rewrite <- Zlt_Qlt. lia.
    - rewrite Qmult_1_l, <- Zle_Qle. lia. }
  assert (F1 : float_round 1 <= float_round (inject_Z n / inject_Z years))
    by (apply float_round_mono; [discriminate | exact H1]).
  assert (C1 : float_round 1 = 1) by (vm_compute; reflexivity).
  rewrite C1 in F1.
  assert (F2 : float_round 10
               <= float_round
                    (float_round (inject_Z n / inject_Z years) * 10))
    by (apply float_round_mono; [discriminate | lra]).
  assert (C2 : float_round 10 = 10) by (vm_compute; reflexivity).
  now rewrite C2 in F2.
Qed.

Lemma ratio_10_below (n years : Z) :
  (0 <= n < years)%Z -> (years <= exact_count_limit)%Z ->
  float_round (float_round (inject_Z n / inject_Z years) * 10) < 10.
Proof.
  intros Hn Hy.
  assert (Hpos : 0 < inject_Z years).
  { change 0 with (inject_Z 0). rewrite <- Zlt_Qlt. lia. }
  assert (H0 : 0 <= inject_Z n / inject_Z years).
  { apply Qle_shift_div_l; [assumption|]. rewrite Qmult_0_l.
    change 0 with (inject_Z 0). rewrite <- Zle_Qle. lia. }
  assert (H1 : inject_Z n / inject_Z years
               <= 9007199254740991 # 9007199254740992).
  { apply Qle_shift_div_r; [assumption|].
    unfold exact_count_limit in Hy.
    change (2 ^ 53)%Z with 9007199254740992%Z in Hy.
    unfold Qle, Qmult, inject_Z. cbn [Qnum Qden].
    rewrite Pos.mul_1_r. lia. }
  pose proof (float_round_nonneg _ H0) as F0.
  pose proof (float_round_mono _ _ H0 H1) as F1.
  assert (C1 : float_round (9007199254740991 # 9007199254740992)
               = 9007199254740991 # 9007199254740992)
    by (vm_compute; reflexivity).
  rewrite C1 in F1.
  assert (F2 : float_round
                 (float_round (inject_Z n / inject_Z years) * 10)
               <= float_round ((9007199254740991 # 9007199254740992) * 10))
    by (apply float_round_mono; lra).
  assert (C2 : float_round ((9007199254740991 # 9007199254740992) * 10) < 10)
    by (vm_compute; reflexivity).
  lra.
Qed.

Lemma ratio_10_pos (n years : Z) :
  (0 < n)%Z -> (0 < years <= exact_count_limit)%Z ->
  0 < float_round (float_round (inject_Z n / inject_Z years) * 10).
Proof.
  intros Hn Hy.
  assert (H1 : 1 # 9007199254740992 <= inject_Z n / inject_Z years).
  { apply Qle_shift_div_l.
    - change 0 with (inject_Z 0). rewrite <- Zlt_Qlt. lia.
    - unfold exact_count_limit in Hy.
      change (2 ^ 53)%Z with 9007199254740992%Z in Hy.
      unfold Qle, Qmult, inject_Z. cbn [Qnum Qden].
      rewrite Pos.mul_1_r. lia. }
  assert (F1 : float_round (1 # 9007199254740992)
               <= float_round (inject_Z n / inject_Z years))
    by (apply float_round_mono; [discriminate | exact H1]).
  assert (C1 : float_round (1 # 9007199254740992) = 1 # 9007199254740992)
    by (vm_compute; reflexivity).
  rewrite C1 in F1.
  assert (F2 : float_round ((1 # 9007199254740992) * 10)
               <= float_round
                    (float_round (inject_Z n / inject_Z years) * 10))
    by (apply float_round_mono; lra).
  assert (C2 : 0 < float_round ((1 # 9007199254740992) * 10))
    by (vm_compute; reflexivity).
  lra.
Qed.

Lemma experience_subscore_relevant (cv : CVData) (job : JobData)
  (years : Z) :
  (exists e, In e (experience cv) /\ blank e = false) ->
  required_years job = inr years ->
  experience_subscore cv job
  = inr (if (years <=? 1)%Z then PyInt 10
         else py_min (PyInt 10)
                (py_mul (py_truediv (Z.of_nat (List.length (experience cv)))
                           years)
                   (PyInt 10))).
Proof.
  intros Hsome Hy. unfold experience_subscore. cbv zeta.
  rewrite Hy, has_relevant_exp_blank.
  rewrite (proj2 (some_entry_not_blank (experience cv)) Hsome).
  destruct Hsome as [e [Hin _]].
  destruct (experience cv); [contradiction | reflexivity].
Qed.

Lemma experience_subscore_irrelevant (cv : CVData) (job : JobData)
  (years : Z) :
  has_relevant_exp cv = false ->
  required_years job = inr years ->
  (experience cv = [] /\ experience_subscore cv job = inr (PyInt 0))
  \/ (experience cv <> [] /\ experience_subscore cv job = inr (PyInt 5)).
Proof.
  intros H Hy. unfold experience_subscore. cbv zeta.
  rewrite Hy, H, andb_false_r.
  destruct (experience cv) as [|a l]; [left | right]; split;
    try reflexivity; discriminate.
Qed.

(** The experience flag of a returned record is set exactly when some
    experience entry is not blank; when it is not set, the experience
    sub-score is 0 (no entry) or 5 (only blank entries); when it is set and
    the job requires at most [2^53] years, the experience sub-score is
    positive. *)
Theorem experience_flag_meaning (cv : CVData) (job : JobData)
  (sd : ScoreDetails) :
  calculate_match_score cv job = inr sd ->
  (experience_match_found sd = true
   <-> exists e, In e (experience cv) /\ blank e = false)
  /\ (experience_match_found sd = false ->
      (experience cv = [] /\ experience_subscore cv job = inr (PyInt 0))
      \/ (experience cv <> []
          /\ experience_subscore cv job = inr (PyInt 5)))
  /\ (experience_match_found sd = true ->
      forall years,
        required_years job = inr years ->
        (years <= exact_count_limit)%Z ->
        exists x, experience_subscore cv job = inr x /\ 0 < value x).
Proof.
  intros Hsd. apply calculate_match_score_inv in Hsd.
  destruct Hsd as [x [Hx [_ [_ [_ [_ [_ [_ [_ Hflag]]]]]]]]].
  rewrite Hflag.
  destruct (experience_subscore_inv cv job x Hx) as [years [Hy _]].
  split; [|split].
  - rewrite has_relevant_exp_blank. apply some_entry_not_blank.
  - intros H. exact (experience_subscore_irrelevant cv job years H Hy).
  - intros H years' Hy' Hlim.
    rewrite has_relevant_exp_blank in H. apply some_entry_not_blank in H.
    rewrite (experience_subscore_relevant cv job years' H Hy').
    eexists. split; [reflexivity|].
    destruct (years' <=? 1)%Z eqn:Ey; [reflexivity|].
    apply Z.leb_gt in Ey. rewrite experience_ratio.
    assert (Hn : (0 < Z.of_nat (List.length (experience cv)))%Z).
    { destruct H as [e [Hin _]].
      destruct (experience cv); [contradiction | simpl; lia]. }
    pose proof (ratio_10_pos _ years' Hn ltac:(lia)) as Hpos.
    unfold py_min. cbn [value].
    now destruct (Qcompare _ _).
Qed.

Lemma experience_flag_meaning_witness :
  experience_subscore Sample.cv_blank_entry Sample.job_scenario
  = inr (PyInt 5).
Proof.
  destruct (proj1 (proj2 (experience_flag_meaning Sample.cv_blank_entry
                            Sample.job_scenario _ eq_refl)) eq_refl)
    as [[H _] | [_ H]]; [discriminate H | exact H].
Defined.

(** A candidate with a non-blank entry and at least as many entries as the
    job requires years earns the full 10. *)
Theorem experience_full_marks (cv : CVData) (job : JobData) (years : Z) :
  (exists e, In e (experience cv) /\ blank e = false) ->
  required_years job = inr years ->
  (years <= Z.of_nat (List.length (experience cv)))%Z ->
  experience_subscore cv job = inr (PyInt 10).
Proof.
  intros Hsome Hy Hyears.
  rewrite (experience_subscore_relevant cv job years Hsome Hy).
  destruct (years <=? 1)%Z eqn:Ey; [reflexivity|].
  apply Z.leb_gt in Ey. f_equal. apply py_min_l.
  rewrite experience_ratio. cbn [value].
  apply (ratio_10_full _ years). lia.
Qed.

Lemma experience_full_marks_witness :
  experience_subscore
    (mkCVData "Ada" [] [] ["intern"; "engineer"; "lead"])
    (mkJobData [] [] "3 years") = inr (PyInt 10).
Proof.
  apply (experience_full_marks
           (mkCVData "Ada" [] [] ["intern"; "engineer"; "lead"])
           (mkJobData [] [] "3 years") 3).
  - exists "intern". split; [left|]; reflexivity.
  - reflexivity.
  - vm_compute. discriminate.
Defined.

(** With a non-blank entry but fewer entries than required years, and at
    most [2^53] required years, the experience sub-score is the [float]
    entries / years * 10, quotient and product each rounded, strictly
    between 0 and 10. *)
Theorem experience_proportional (cv : CVData) (job : JobData) (years : Z) :
  (exists e, In e (experience cv) /\ blank e = false) ->
  required_years job = inr years ->
  (Z.of_nat (List.length (experience cv)) < years)%Z ->
  (years <= exact_count_limit)%Z ->
  experience_subscore cv job
  = inr (PyFloat
           (float_round
              (float_round
                 (inject_Z (Z.of_nat (List.length (experience cv)))
                  / inject_Z years) * 10)))
  /\ 0 < float_round
           (float_round
              (inject_Z (Z.of_nat (List.length (experience cv)))
               / inject_Z years) * 10) < 10.
Proof.
  intros Hsome Hy Hyears Hlim.
  assert (Hn : (0 < Z.of_nat (List.length (experience cv)))%Z).
  { destruct Hsome as [e [Hin _]].
    destruct (experience cv); [contradiction | simpl; lia]. }
  rewrite (experience_subscore_relevant cv job years Hsome Hy).
  destruct (years <=? 1)%Z eqn:Ey; [apply Z.leb_le in Ey; lia|].
  pose proof (ratio_10_pos _ years Hn ltac:(lia)) as Hpos.
  pose proof (ratio_10_below (Z.of_nat (List.length (experience cv))) years
                ltac:(lia) Hlim) as Hlt.
  rewrite experience_ratio. split; [|now split].
  f_equal. now apply py_min_r.
Qed.

Lemma experience_proportional_witness :
  experience_subscore (mkCVData "Ada" [] [] ["intern"; "engineer"])
    (mkJobData [] [] "5 years")
  = inr (PyFloat (float_round (float_round (inject_Z 2 / inject_Z 5) * 10))).
Proof.
  apply (proj1 (experience_proportional
                  (mkCVData "Ada" [] [] ["intern"; "engineer"])
                  (mkJobData [] [] "5 years") 5
                  (ex_intro _ "intern" (conj (or_introl eq_refl) eq_refl))
                  eq_refl eq_refl ltac:(discriminate))).
Defined.

End SubscoreFacts.

(** ** Further facts about the required years *)

Section RequiredYearsFacts.

Lemma is_digit_lower_char (c : ascii) :
  is_digit c = true -> lower_char c = c.
Proof.
  destruct c as [[] [] [] [] [] [] [] []]; try reflexivity; discriminate.
Qed.

Lemma lower_digits (g : string) : all_digits g = true -> lower g = g.
Proof.
  induction g as [|c g IH]; simpl; [reflexivity|].
  rewrite andb_true_iff. intros [Hc Hg].
  now rewrite (is_digit_lower_char c Hc), (IH Hg).
Qed.

Lemma digit_value_nonneg (c : ascii) :
  is_digit c = true -> (0 <= digit_value c)%Z.
Proof.
  destruct c as [[] [] [] [] [] [] [] []]; try discriminate;
    intros _; vm_compute; discriminate.
Qed.

Lemma int_of_digits_from_nonneg (g : string) (acc : Z) :
  all_digits g = true -> (0 <= acc)%Z -> (0 <= int_of_digits_from acc g)%Z.
Proof.
  revert acc; induction g as [|c g IH]; intros acc;
    cbn [all_digits int_of_digits_from]; [auto|].
  rewrite andb_true_iff. intros [Hc Hg] Hacc. apply IH; [assumption|].
  pose proof (digit_value_nonneg c Hc). lia.
Qed.

(** [int] on a digit string: the decimal value up to 4300 digits, and
    [ValueError] beyond. *)
Lemma int_of_digits_cases (g : string) :
  ((String.length g <= int_max_str_digits)%nat
   /\ int_of_digits g = inr (int_of_digits_from 0%Z g))
  \/ ((int_max_str_digits < String.length g)%nat
      /\ int_of_digits g = inl (ValueError (String.length g))).
Proof.
  unfold int_of_digits.
  destruct (int_max_str_digits <? String.length g)%nat eqn:E.
  - right. apply Nat.ltb_lt in E. now split.
  - left. apply Nat.ltb_ge in E. now split.
Qed.

(** What follows a match of the digits cannot itself start a match. *)
Lemma match_sep_year_not_digit (rest : string) :
  match_sep_year rest = true -> match_years_at rest = None.
Proof.
  destruct rest as [|d r]; [reflexivity|].
  destruct d as [[] [] [] [] [] [] [] []]; try reflexivity;
    unfold match_sep_year, year_word; simpl;
    rewrite ?andb_false_l; discriminate.
Qed.

Lemma match_years_at_digits (g rest : string) :
  g <> "" -> all_digits g = true -> match_sep_year rest = true ->
  match_years_at (g ++ rest) = Some g.
Proof.
  intros Hne Hd Hrest. induction g as [|c g IH]; [congruence|].
  simpl in Hd. apply andb_true_iff in Hd. destruct Hd as [Hc Hg].
  simpl. rewrite Hc. destruct g as [|c' g'].
  - simpl. now rewrite (match_sep_year_not_digit rest Hrest), Hrest.
  - now rewrite (IH ltac:(discriminate) Hg).
Qed.

(** Parsed required years are never negative, and a non-zero value is the
    decimal value of a run of at most 4300 digits of the lowercase text
    that stands directly before an optional "-" or whitespace and "year" or
    "yr". *)
Theorem required_years_sound (job : JobData) (years : Z) :
  required_years job = inr years ->
  (0 <= years)%Z
  /\ (years <> 0%Z ->
      exists pre g rest,
        lower (experience_needed job) = pre ++ g ++ rest
        /\ g <> "" /\ all_digits g = true
        /\ match_sep_year rest = true
        /\ (String.length g <= int_max_str_digits)%nat
        /\ required_years job = int_of_digits g
        /\ years = int_of_digits_from 0%Z g).
Proof.
  unfold required_years.
  destruct (search_years (lower (experience_needed job))) as [g|] eqn:E.
  - destruct (search_years_sound _ _ E) as [Hn [Hd [pre [rest [Ht Hr]]]]].
    intros Hy.
    destruct (int_of_digits_cases g) as [[Hlen Hint] | [_ Hint]];
      rewrite Hint in Hy; [|discriminate].
    assert (Hval : years = int_of_digits_from 0%Z g) by congruence.
    split.
    + rewrite Hval. apply int_of_digits_from_nonneg; [assumption | lia].
    + intros _. exists pre, g, rest. repeat (split; [assumption|]).
      split; [reflexivity | assumption].
  - intros Hy. assert (years = 0%Z) by congruence. subst years.
    split; [lia | congruence].
Qed.

Lemma required_years_sound_witness :
  exists pre g rest,
    lower (experience_needed Sample.job_scenario) = pre ++ g ++ rest
    /\ g <> "" /\ all_digits g = true
    /\ match_sep_year rest = true
    /\ (String.length g <= int_max_str_digits)%nat
    /\ required_years Sample.job_scenario = int_of_digits g
    /\ 2%Z = int_of_digits_from 0%Z g.
Proof.
  apply (proj2 (required_years_sound Sample.job_scenario 2 eq_refl)).
  discriminate.
Defined.

Lemma required_years_leading_core (job : JobData) (g rest : string) :
  experience_needed job = g ++ rest ->
  g <> "" -> all_digits g = true ->
  match_sep_year (lower rest) = true ->
  required_years job = int_of_digits g.
Proof.
  intros Ht Hne Hd Hrest. unfold required_years.
  rewrite Ht, lower_app, (lower_digits g Hd).
  destruct g as [|c g']; [congruence|].
  change (search_years (String c g' ++ lower rest))
    with (match match_years_at (String c g' ++ lower rest) with
          | Some m => Some m
          | None => search_years (g' ++ lower rest)
          end).
  now rewrite (match_years_at_digits (String c g') (lower rest) Hne Hd Hrest).
Qed.

(** An experience text that starts with a number directly followed by an
    optional "-" or whitespace and "year" or "yr" (in any letter case)
    requires that number of years when the number has at most 4300 digits;
    with more digits, reading the required years raises [ValueError]. *)
Theorem required_years_leading (job : JobData) (g rest : string) :
  experience_needed job = g ++ rest ->
  g <> "" -> all_digits g = true ->
  match_sep_year (lower rest) = true ->
  required_years job = int_of_digits g
  /\ ((String.length g <= int_max_str_digits)%nat ->
      required_years job = inr (int_of_digits_from 0%Z g))
  /\ ((int_max_str_digits < String.length g)%nat ->
      required_years job = inl (ValueError (String.length g))).
Proof.
  intros Ht Hne Hd Hrest.
  rewrite (required_years_leading_core job g rest Ht Hne Hd Hrest).
  split; [reflexivity|].
  destruct (int_of_digits_cases g) as [[Hlen Hint] | [Hlen Hint]];
    rewrite Hint; split; intros H; try reflexivity; lia.
Qed.

Lemma required_years_leading_witness :
  required_years (mkJobData [] [] "15-YEAR veteran") = inr 15%Z.
Proof.
  refine (proj1 (proj2 (required_years_leading
                          (mkJobData [] [] "15-YEAR veteran")
                          "15" "-YEAR veteran" eq_refl _ eq_refl eq_refl))
            _).
  - discriminate.
  - apply Nat.leb_le. reflexivity.
Defined.

Lemma string_length_app (a b : string) :
  String.length (a ++ b) = (String.length a + String.length b)%nat.
Proof. induction a as [|c a IH]; simpl; [reflexivity | now rewrite IH]. Qed.

Lemma search_years_length (s g : string) :
  search_years s = Some g -> (String.length g <= String.length s)%nat.
Proof.
  intros H. destruct (search_years_sound s g H) as [_ [_ [pre [rest [-> _]]]]].
  rewrite !string_length_app. lia.
Qed.

(** The scorer returns a record exactly when the digits the pattern
    captures, if any, are at most 4300; in particular it returns one for
    every job whose experience text has at most 4300 characters, and the
    only exception it raises is the [ValueError] of [int]. *)
Theorem scorer_returns (cv : CVData) (job : JobData) :
  ((exists sd, calculate_match_score cv job = inr sd)
   <-> (forall g,
          search_years (lower (experience_needed job)) = Some g ->
          (String.length g <= int_max_str_digits)%nat))
  /\ ((String.length (experience_needed job) <= int_max_str_digits)%nat ->
      exists sd, calculate_match_score cv job = inr sd)
  /\ (forall e,
        calculate_match_score cv job = inl e ->
        exists g,
          search_years (lower (experience_needed job)) = Some g
          /\ (int_max_str_digits < String.length g)%nat
          /\ e = ValueError (String.length g)).
Proof.
  assert (Hiff : (exists sd, calculate_match_score cv job = inr sd)
                 <-> (forall g,
                        search_years (lower (experience_needed job)) = Some g
                        -> (String.length g <= int_max_str_digits)%nat)).
  { rewrite calculate_match_score_returns. unfold required_years.
    destruct (search_years (lower (experience_needed job))) as [g|].
    - destruct (int_of_digits_cases g) as [[Hlen Hint] | [Hlen Hint]];
        rewrite Hint; split.
      + intros _ g' Hg'. now inversion Hg'; subst g'.
      + intros _. eexists. reflexivity.
      + intros [years H]. discriminate.
      + intros H. specialize (H g eq_refl). lia.
    - split; [intros _ g H; discriminate | intros _; now exists 0%Z]. }
  split; [exact Hiff|]. split.
  - intros Hlen. apply Hiff. intros g Hg.
    apply search_years_length in Hg.
    rewrite (proj1 (lower_spec (experience_needed job))) in Hg. lia.
  - intros e. unfold calculate_match_score, experience_subscore,
      required_years.
    destruct (search_years (lower (experience_needed job))) as [g|];
      [|discriminate].
    destruct (int_of_digits_cases g) as [[Hlen Hint] | [Hlen Hint]];
      rewrite Hint; [discriminate|].
    intros H. exists g. split; [reflexivity|]. split; [assumption|].
    congruence.
Qed.

End RequiredYearsFacts.

(** ** Case and surrounding whitespace *)

Section NormalisationFacts.

Local Open Scope Q_scope.

Lemma lower_char_idem (c : ascii) : lower_char (lower_char c) = lower_char c.
Proof. destruct c as [[] [] [] [] [] [] [] []]; reflexivity. Qed.

Lemma lower_idem (s : string) : lower (lower s) = lower s.
Proof.
  induction s as [|c s IH]; simpl; [reflexivity|].
  now rewrite lower_char_idem, IH.
Qed.

Lemma lower_lstrip (s : string) : lower (lstrip s) = lstrip (lower s).
Proof.
  induction s as [|c s IH]; simpl; [reflexivity|].
  rewrite is_space_lower_char. now destruct (is_space c).
Qed.

Lemma lower_rstrip (s : string) : lower (rstrip s) = rstrip (lower s).
Proof.
  induction s as [|c s IH]; simpl; [reflexivity|].
  rewrite <- IH, is_space_lower_char.
  destruct (rstrip s); simpl; [now destruct (is_space c) | reflexivity].
Qed.

Lemma lower_strip (s : string) : lower (strip s) = strip (lower s).
Proof. unfold strip. now rewrite lower_rstrip, lower_lstrip. Qed.

Lemma rstrip_idem (s : string) : rstrip (rstrip s) = rstrip s.
Proof.
  induction s as [|c s IH]; simpl; [reflexivity|].
  destruct (rstrip s) as [|a r] eqn:E.
  - destruct (is_space c) eqn:Ec; simpl; [reflexivity | now rewrite Ec].
  - change (rstrip (String c (String a r)))
      with (match rstrip (String a r) with
            | EmptyString =>
                if is_space c then EmptyString else String c EmptyString
            | String x y => String c (String x y)
            end).
    now rewrite IH.
Qed.

Lemma lstrip_rstrip_head (c : ascii) (t : string) :
  is_space c = false -> lstrip (rstrip (String c t)) = rstrip (String c t).
Proof.
  intros Hc. simpl. destruct (rstrip t); [rewrite Hc|]; simpl; now rewrite Hc.
Qed.

(** Trimming twice is trimming once. *)
Lemma strip_idem (s : string) : strip (strip s) = strip s.
Proof.
  unfold strip.
  destruct (lstrip_head s) as [E | [c [t [E Hc]]]]; rewrite E.
  - reflexivity.
  - now rewrite (lstrip_rstrip_head c t Hc), rstrip_idem.
Qed.

Lemma normalize_idem (l : list string) : normalize (normalize l) = normalize l.
Proof.
  unfold normalize. rewrite map_map. apply map_ext. intros s.
  now rewrite lower_strip, lower_idem, strip_idem.
Qed.

Lemma normalize_lower (l : list string) : normalize (map lower l) = normalize l.
Proof.
  unfold normalize. rewrite map_map. apply map_ext. intros s.
  now rewrite lower_idem.
Qed.

Lemma normalize_strip (l : list string) : normalize (map strip l) = normalize l.
Proof.
  unfold normalize. rewrite map_map. apply map_ext. intros s.
  now rewrite lower_strip, strip_idem.
Qed.

(** The scorer's outcome does not depend on the letter case or on the
    leading and trailing whitespace of the skill, education, required-skill
    and qualification entries: lowercasing them all, or trimming them all,
    gives the same record, or the same exception. *)
Theorem score_ignores_case_and_padding (cv : CVData) (job : JobData) :
  calculate_match_score
    (mkCVData (name cv) (map lower (skills cv)) (map lower (education cv))
       (experience cv))
    (mkJobData (map lower (required_skills job))
       (map lower (qualifications job)) (experience_needed job))
  = calculate_match_score cv job
  /\ calculate_match_score
       (mkCVData (name cv) (map strip (skills cv)) (map strip (education cv))
          (experience cv))
       (mkJobData (map strip (required_skills job))
          (map strip (qualifications job)) (experience_needed job))
     = calculate_match_score cv job.
Proof.
  unfold calculate_match_score, skill_subscore, edu_subscore, cv_edu_text,
    job_qual_text, experience_subscore, has_relevant_exp, cv_exp_text,
    required_years.
  cbn [skills education experience name required_skills qualifications
       experience_needed].
  now rewrite !normalize_lower, !normalize_strip.
Qed.

Lemma skill_subscore_none_matched (cv : CVData) (job : JobData) :
  Forall (fun r => ~ SkillMatches (normalize (skills cv)) r)
    (normalize (required_skills job)) ->
  in_range (skill_subscore cv job) 0.
Proof.
  intros Hnone. split; [apply skill_subscore_range|].
  apply existsb_skill_matched, filter_length_none in Hnone.
  unfold skill_subscore.
  destruct (0 <? List.length (normalize (required_skills job)))%nat;
    [|apply Qle_refl].
  rewrite skill_ratio, count_skill_matches_filter, Hnone. cbn [value].
  rewrite ratio_70_zero. apply Qle_refl.
Qed.

(** When no required skill is matched (in particular when the job lists
    none), the total of a returned record is at most 30 and reads as a
    "Low Match". *)
Theorem unmatched_skills_low_match (cv : CVData) (job : JobData)
  (sd : ScoreDetails) :
  Forall (fun r => ~ SkillMatches (normalize (skills cv)) r)
    (normalize (required_skills job)) ->
  calculate_match_score cv job = inr sd ->
  (total_score sd <= 30)%Z
  /\ get_interpretation (total_score sd)
     = "Low Match. Significant skill gaps present.".
Proof.
  intros Hnone Hsd. apply skill_subscore_none_matched in Hnone.
  apply calculate_match_score_inv in Hsd.
  destruct Hsd as [x [Hx [Ht _]]].
  assert (Hle : (total_score sd <= 30)%Z).
  { rewrite Ht. apply py_round_range.
    apply (py_add_range _ _ 20 10 exact_20 exact_10 exact_30).
    - apply (py_add_range _ _ 0 20 exact_0 exact_20 exact_20);
        [assumption | apply edu_subscore_range].
    - exact (experience_subscore_range cv job x Hx). }
  split; [assumption|].
  unfold get_interpretation.
  destruct (Z.leb_spec 80 (total_score sd)); [lia|].
  destruct (Z.leb_spec 60 (total_score sd)); [lia|].
  destruct (Z.leb_spec 40 (total_score sd)); [lia | reflexivity].
Qed.

Lemma unmatched_skills_low_match_witness :
  exists sd,
    calculate_match_score Sample.cv_scenario Sample.job_empty = inr sd
    /\ get_interpretation (total_score sd)
       = "Low Match. Significant skill gaps present.".
Proof.
  eexists. split; [reflexivity|].
  apply (proj2 (unmatched_skills_low_match Sample.cv_scenario
                  Sample.job_empty _ (Forall_nil _) eq_refl)).
Defined.

End NormalisationFacts.

(** ** Facts about [replace] and the response cleaning *)

Section CleaningFacts.

Import PyReplace.

Lemma prefix_cons_eqb (a c : ascii) (p s : string) :
  String.prefix (String a p) (String c s)
  = if Ascii.eqb a c then String.prefix p s else false.
Proof.
  simpl. destruct (ascii_dec a c) as [E | N].
  - subst. now rewrite Ascii.eqb_refl.
  - apply Ascii.eqb_neq in N. now rewrite N.
Qed.

Lemma prefix_nil (s : string) : String.prefix "" s = true.
Proof. now destruct s. Qed.

(** A text starts with a fence exactly when it starts with three
    backticks. *)
Lemma prefix_fence_ticks (s : string) :
  String.prefix "```" s = true <-> (3 <= ticks s)%nat.
Proof.
  destruct s as [|a [|b [|c r]]]; cbn [ticks];
    repeat rewrite prefix_cons_eqb; rewrite ?prefix_nil;
    rewrite ?(Ascii.eqb_sym "`"%char); fold backtick;
    repeat match goal with
           | |- context [Ascii.eqb ?x backtick] =>
               destruct (Ascii.eqb x backtick)
           end;
    cbn; split; intros H; try discriminate H; try lia; reflexivity.
Qed.

Lemma replace_from_keep (old new : string) (c : ascii) (s : string) :
  String.prefix old (String c s) = false ->
  replace_from old new 0 (String c s) = String c (replace_from old new 0 s).
Proof.
  intros H.
  change (replace_from old new 0 (String c s))
    with (if String.prefix old (String c s)
          then new ++ replace_from old new (String.length old - 1) s
          else String c (replace_from old new 0 s)).
  now rewrite H.
Qed.

Lemma replace_from_skip (old new a b : string) :
  replace_from old new (String.length a) (a ++ b) = replace_from old new 0 b.
Proof.
  induction a as [|c a IH]; [now destruct b|]. exact IH.
Qed.

(** An occurrence at the head is replaced and the scan resumes after it. *)
Lemma replace_from_hit (c : ascii) (old' new b : string) :
  replace_from (String c old') new 0 (String c old' ++ b)
  = new ++ replace_from (String c old') new 0 b.
Proof.
  change (replace_from (String c old') new 0 (String c old' ++ b))
    with (if String.prefix (String c old') (String c (old' ++ b))
          then new ++ replace_from (String c old') new
                        (String.length (String c old') - 1) (old' ++ b)
          else String c (replace_from (String c old') new 0 (old' ++ b))).
  rewrite (proj2 (prefix_spec (String c old') (String c (old' ++ b)))
             (ex_intro _ b eq_refl)).
  replace (String.length (String c old') - 1)%nat with (String.length old')
    by (simpl; lia).
  now rewrite replace_from_skip.
Qed.

(** Where [old] does not occur, nothing is replaced. *)
Lemma replace_from_absent (old new s : string) :
  str_in old s = false -> replace_from old new 0 s = s.
Proof.
  induction s as [|c s IH]; [reflexivity|].
  change (str_in old (String c s))
    with (String.prefix old (String c s) || str_in old s).
  rewrite orb_false_iff. intros [Hp Hs].
  now rewrite (replace_from_keep old new c s Hp), (IH Hs).
Qed.

(** Removing the fences leaves no fence behind. *)
Lemma replace_fence_free (n : nat) (s : string) :
  (String.length s <= n)%nat ->
  (ticks (replace_from "```" "" 0 s) <= ticks s)%nat
  /\ str_in "```" (replace_from "```" "" 0 s) = false.
Proof.
  revert s; induction n as [|n IH]; intros s Hlen.
  - destruct s; [split; [simpl; lia | reflexivity] | simpl in Hlen; lia].
  - destruct s as [|c s']; [split; [simpl; lia | reflexivity]|].
    destruct (String.prefix "```" (String c s')) eqn:Hp.
    + pose proof (proj1 (prefix_fence_ticks _) Hp) as Ht.
      apply prefix_spec in Hp. destruct Hp as [r Hr]. rewrite Hr.
      rewrite (replace_from_hit "`" "``" "" r).
      change ("" ++ replace_from "```" "" 0 r)
        with (replace_from "```" "" 0 r).
      destruct (IH r) as [IH1 IH2].
      { rewrite Hr in Hlen. simpl in Hlen. lia. }
      split; [|assumption].
      change (ticks ("```" ++ r)) with (S (S (S (ticks r)))). lia.
    + rewrite (replace_from_keep "```" "" c s' Hp).
      destruct (IH s') as [IH1 IH2]; [simpl in Hlen; lia|].
      assert (Hticks : (ticks (String c (replace_from "```" "" 0 s'))
                        <= ticks (String c s'))%nat).
      { simpl. destruct (Ascii.eqb c backtick); lia. }
      split; [assumption|].
      change (str_in "```" (String c (replace_from "```" "" 0 s')))
        with (String.prefix "```" (String c (replace_from "```" "" 0 s'))
              || str_in "```" (replace_from "```" "" 0 s')).
      rewrite IH2, orb_false_r.
      destruct (String.prefix "```"
                  (String c (replace_from "```" "" 0 s'))) eqn:Hq;
        [|reflexivity].
      apply prefix_fence_ticks in Hq.
      assert (~ (3 <= ticks (String c s'))%nat).
      { intros H3. apply prefix_fence_ticks in H3. congruence. }
      lia.
Qed.

Lemma lstrip_suffix (s : string) : exists pre, s = pre ++ lstrip s.
Proof.
  induction s as [|c s [pre IH]]; simpl; [now exists ""|].
  destruct (is_space c).
  - exists (String c pre). simpl. now rewrite <- IH.
  - now exists "".
Qed.

Lemma rstrip_prefix (s : string) : exists suf, s = rstrip s ++ suf.
Proof.
  induction s as [|c s [suf IH]]; simpl; [now exists ""|].
  destruct (rstrip s) as [|a r].
  - destruct (is_space c).
    + now exists (String c s).
    + exists suf. simpl. f_equal. exact IH.
  - exists suf. simpl. f_equal. exact IH.
Qed.

(** The trimmed text is a part of the text. *)
Lemma strip_Substring (s : string) : Substring (strip s) s.
Proof.
  unfold strip. destruct (lstrip_suffix s) as [pre Hpre].
  destruct (rstrip_prefix (lstrip s)) as [suf Hsuf].
  exists pre, suf. now rewrite <- Hsuf.
Qed.

Lemma str_in_false_Substring (a b c : string) :
  Substring b c -> str_in a c = false -> str_in a b = false.
Proof.
  intros Hbc Hc. destruct (str_in a b) eqn:E; [|reflexivity].
  apply str_in_spec in E.
  assert (str_in a c = true)
    by (apply str_in_spec; exact (Substring_trans _ _ _ E Hbc)).
  congruence.
Qed.

End CleaningFacts.

(** ** The response cleaning *)

Section CleaningTheorems.

Import PyReplace.

Lemma lstrip_blank_app (pad s : string) :
  blank pad = true -> lstrip (pad ++ s) = lstrip s.
Proof.
  induction pad as [|c pad IH]; simpl; [reflexivity|].
  rewrite andb_true_iff. intros [Hc Hpad]. now rewrite Hc, IH.
Qed.

Lemma rstrip_app_blank (s pad : string) :
  blank pad = true -> rstrip (s ++ pad) = rstrip s.
Proof.
  intros Hpad. induction s as [|c s IH]; simpl.
  - now apply rstrip_nil_blank.
  - now rewrite IH.
Qed.

Lemma rstrip_app_keep (a b : string) :
  rstrip b = b -> b <> "" -> rstrip (a ++ b) = a ++ b.
Proof.
  intros Hb Hne. induction a as [|c a IH]; simpl; [assumption|].
  rewrite IH. destruct (a ++ b) eqn:E; [|reflexivity].
  destruct a; simpl in E; [congruence | discriminate].
Qed.

Lemma str_in_skip_no_backtick (p body t : string) :
  no_backtick body = true ->
  str_in (String backtick p) (body ++ t) = str_in (String backtick p) t.
Proof.
  induction body as [|c body IH]; simpl no_backtick; [reflexivity|].
  rewrite andb_true_iff, negb_true_iff. intros [Hc Hbody].
  change (str_in (String backtick p) (String c body ++ t))
    with (String.prefix (String backtick p) (String c (body ++ t))
          || str_in (String backtick p) (body ++ t)).
  rewrite prefix_cons_eqb, Ascii.eqb_sym, Hc. now apply IH.
Qed.

Lemma replace_from_no_backtick_app (p new body t : string) :
  no_backtick body = true ->
  replace_from (String backtick p) new 0 (body ++ t)
  = body ++ replace_from (String backtick p) new 0 t.
Proof.
  induction body as [|c body IH]; simpl no_backtick; [reflexivity|].
  rewrite andb_true_iff, negb_true_iff. intros [Hc Hbody].
  change (String c body ++ t) with (String c (body ++ t)).
  rewrite replace_from_keep.
  - simpl. now rewrite IH.
  - now rewrite prefix_cons_eqb, Ascii.eqb_sym, Hc.
Qed.

(** The cleaned response text never contains a code fence. *)
Theorem clean_json_text_no_fence (response_text : string) :
  str_in "```" (clean_json_text response_text) = false
  /\ ~ Substring "```" (clean_json_text response_text).
Proof.
  assert (H : str_in "```" (clean_json_text response_text) = false).
  { unfold clean_json_text.
    apply (str_in_false_Substring _ _ _ (strip_Substring _)).
    apply (replace_fence_free _ _ (Nat.le_refl _)). }
  split; [assumption|].
  intros Hs. apply str_in_spec in Hs. congruence.
Qed.

Lemma clean_json_text_plain_core (response_text : string) :
  str_in "```" response_text = false ->
  clean_json_text response_text = strip response_text.
Proof.
  intros H. unfold clean_json_text, replace.
  pose proof (str_in_false_Substring "```" _ _
                (strip_Substring response_text) H) as Hs.
  assert (Hj : str_in "```json" (strip response_text) = false).
  { destruct (str_in "```json" (strip response_text)) eqn:E; [|reflexivity].
    apply str_in_spec in E.
    assert (str_in "```" (strip response_text) = true).
    { apply str_in_spec.
      apply (Substring_trans _ "```json" _); [|assumption].
      now exists "", "json". }
    congruence. }
  rewrite (replace_from_absent _ _ _ Hj), (replace_from_absent _ _ _ Hs).
  apply strip_idem.
Qed.

(** A response without a code fence is only trimmed. *)
Theorem clean_json_text_plain (response_text : string) :
  str_in "```" response_text = false ->
  clean_json_text response_text = strip response_text.
Proof. exact (clean_json_text_plain_core response_text). Qed.

Lemma clean_json_text_plain_witness :
  clean_json_text "  {} " = "{}".
Proof. apply (clean_json_text_plain "  {} "). reflexivity. Defined.

Lemma clean_json_text_fenced_core (pad_l body pad_r : string) :
  blank pad_l = true -> blank pad_r = true -> no_backtick body = true ->
  clean_json_text (pad_l ++ "```json" ++ body ++ "```" ++ pad_r)
  = strip body.
Proof.
  intros Hl Hr Hbody. unfold clean_json_text, replace.
  assert (Hstrip : strip (pad_l ++ "```json" ++ body ++ "```" ++ pad_r)
                   = "```json" ++ body ++ "```").
  { unfold strip. rewrite (lstrip_blank_app pad_l _ Hl).
    change (lstrip ("```json" ++ body ++ "```" ++ pad_r))
      with ("```json" ++ body ++ "```" ++ pad_r).
    replace ("```json" ++ body ++ "```" ++ pad_r)
      with ((("```json" ++ body) ++ "```") ++ pad_r)
      by (now rewrite !append_assoc).
    rewrite (rstrip_app_blank _ pad_r Hr).
    rewrite rstrip_app_keep; [now rewrite append_assoc | reflexivity
                              | discriminate]. }
  rewrite Hstrip.
  rewrite (replace_from_hit "`" "``json" "" (body ++ "```")).
  change ("" ++ replace_from "```json" "" 0 (body ++ "```"))
    with (replace_from "```json" "" 0 (body ++ "```")).
  rewrite (replace_from_absent "```json" "" (body ++ "```")).
  - change (replace_from "```" "" 0 (body ++ "```"))
      with (replace_from (String backtick "``") "" 0 (body ++ "```")).
    rewrite (replace_from_no_backtick_app "``" "" body "```" Hbody).
    change (replace_from (String backtick "``") "" 0 "```") with "".
    now rewrite append_nil_r.
  - change (str_in "```json" (body ++ "```"))
      with (str_in (String backtick "``json") (body ++ "```")).
    now rewrite (str_in_skip_no_backtick "``json" body "```" Hbody).
Qed.

(** A response that is one fenced block, "```json", a body without
    backticks and "```", possibly surrounded by whitespace, is cleaned to
    the trimmed body. *)
Theorem clean_json_text_fenced (pad_l body pad_r : string) :
  blank pad_l = true -> blank pad_r = true -> no_backtick body = true ->
  clean_json_text (pad_l ++ "```json" ++ body ++ "```" ++ pad_r)
  = strip body.
Proof. exact (clean_json_text_fenced_core pad_l body pad_r). Qed.

Lemma clean_json_text_fenced_witness :
  clean_json_text (" " ++ "```json" ++ " {} " ++ "```" ++ " ") = "{}".
Proof.
  apply (clean_json_text_fenced " " " {} " " "); reflexivity.
Defined.

End CleaningTheorems.

(** ** The extractors *)

Section ExtractorTheorems.

Variables (exn json : Type).
Variable json_loads : string -> exn + json.
Variable CVData_of : json -> exn + CVData.
Variable JobData_of : json -> exn + JobData.
Variables (cv_prompt job_prompt : string -> string).
Variable PdfReader : string -> exn + list (exn + string).

(** A model that answers with one fenced block gives the same candidate and
    job records as a model that answers with the bare body of the block,
    provided the body holds no backtick. *)
Theorem fenced_response_same_as_bare
  (fenced bare : string -> exn + string) (text body : string) :
  no_backtick body = true ->
  (fenced (cv_prompt text) = inr ("```json" ++ body ++ "```") ->
   bare (cv_prompt text) = inr body ->
   extract_cv_details exn json fenced json_loads CVData_of cv_prompt text
   = extract_cv_details exn json bare json_loads CVData_of cv_prompt text)
  /\ (fenced (job_prompt text) = inr ("```json" ++ body ++ "```") ->
      bare (job_prompt text) = inr body ->
      extract_job_details exn json fenced json_loads JobData_of job_prompt
        text
      = extract_job_details exn json bare json_loads JobData_of job_prompt
          text).
Proof.
  intros Hbody.
  assert (Hf : clean_json_text ("```json" ++ body ++ "```") = strip body).
  { exact (clean_json_text_fenced_core "" body "" eq_refl eq_refl Hbody). }
  assert (Hb : clean_json_text body = strip body).
  { apply clean_json_text_plain_core.
    change "```" with (String backtick "``").
    rewrite <- (append_nil_r body).
    now rewrite (str_in_skip_no_backtick "``" body "" Hbody). }
  split; intros H1 H2.
  - unfold extract_cv_details. now rewrite H1, H2, Hf, Hb.
  - unfold extract_job_details. now rewrite H1, H2, Hf, Hb.
Qed.

(** Text extraction succeeds exactly when the reader gives the pages and
    every page gives its text; the result is the page texts concatenated in
    order. *)
Lemma read_pages_spec (pages : list (exn + string)) (acc text : string) :
  read_pages exn acc pages = inr text
  <-> exists texts,
        pages = map inr texts /\ text = acc ++ String.concat "" texts.
Proof.
  revert acc; induction pages as [|page rest IH]; intros acc; simpl.
  - split.
    + intros H. inversion H. exists []. simpl. now rewrite append_nil_r.
    + intros [texts [Hp Ht]]. destruct texts; [|discriminate].
      simpl in Ht. now rewrite append_nil_r in Ht; subst.
  - destruct page as [e | t].
    + split; [discriminate|]. intros [texts [Hp _]].
      destruct texts; discriminate.
    + rewrite IH. split.
      * intros [texts [Hp Ht]]. exists (t :: texts). split.
        -- simpl. now rewrite Hp.
        -- rewrite Ht, append_assoc. f_equal.
           destruct texts; simpl; [now rewrite append_nil_r | reflexivity].
      * intros [texts [Hp Ht]]. destruct texts as [|t' texts];
          [discriminate|].
        inversion Hp; subst t' rest. exists texts. split; [reflexivity|].
        rewrite Ht, append_assoc. f_equal.
        destruct texts; simpl; [now rewrite append_nil_r | reflexivity].
Qed.

Theorem extract_text_from_pdf_spec (path text : string) :
  extract_text_from_pdf exn PdfReader path = Some text
  <-> exists texts,
        PdfReader path = inr (map inr texts)
        /\ text = String.concat "" texts.
Proof.
  unfold extract_text_from_pdf. destruct (PdfReader path) as [e | pages].
  - split; [discriminate | intros [texts [H _]]; discriminate].
  - destruct (read_pages exn "" pages) as [e | t] eqn:E.
    + split; [discriminate|]. intros [texts [Hp Ht]].
      inversion Hp; subst pages.
      assert (read_pages exn "" (map inr texts)
              = inr ("" ++ String.concat "" texts))
        by (apply read_pages_spec; now exists texts).
      congruence.
    + apply read_pages_spec in E. destruct E as [texts [Hp Ht]].
      simpl in Ht. split.
      * intros H. inversion H; subst. now exists texts.
      * intros [texts' [Hp' Ht']]. inversion Hp'; subst pages.
        apply (f_equal (map (fun p : exn + string =>
                               match p with inr x => x | inl _ => "" end)))
          in H0.
        rewrite !map_map, !map_id in H0. now subst.
Qed.

End ExtractorTheorems.

Lemma fenced_response_same_as_bare_witness :
  extract_cv_details unit string Fixture.fenced_model Fixture.loads
    Fixture.cv_of Fixture.prompt "resume"
  = extract_cv_details unit string Fixture.bare_model Fixture.loads
      Fixture.cv_of Fixture.prompt "resume".
Proof.
  apply (proj1 (fenced_response_same_as_bare unit string Fixture.loads
                  Fixture.cv_of Fixture.job_of Fixture.prompt Fixture.prompt
                  Fixture.fenced_model Fixture.bare_model "resume" "{}"
                  eq_refl)); reflexivity.
Defined.


(** ** The orchestrator with its collaborators, and the endpoint *)

Section CompositionFacts.

Variables (datetime exn : Type) (str_of_exn : exn -> string).
Variable as_exn : exception -> exn.
Variable extract_text : string -> option string.
Variable extract_cv : string -> option CVData.
Variable extract_job : string -> option JobData.
Variables (now_result now_filename : datetime).
Variable strftime : datetime -> string.
Variable save_pdf : CVData -> JobData -> ScoreDetails -> exn + string.
Variable save_json : @MatchResult datetime -> string -> string.
Variable stage_uploads : string -> string -> exn + (string * string).
Variable PdfReader : string -> exn + list (exn + string).
Variable OUTPUT_DIR : string.
Variable joinpath : string -> string -> string.
Variable dump_json : string -> @MatchResult datetime -> exn + unit.

Lemma read_pages_empty (pages : list (exn + string)) (acc : string) :
  Forall (fun page => page = inr "") pages ->
  read_pages exn acc pages = inr acc.
Proof.
  intros H. revert acc. induction H as [|page rest Hp _ IH]; intros acc.
  - reflexivity.
  - subst page. simpl. rewrite append_nil_r. apply IH.
Qed.

(** A PDF without pages, or whose pages all give empty text, counts as a
    failed extraction: the orchestrator, reading its texts through
    [extract_text_from_pdf], returns no result and the extraction message,
    whichever of the two files it is. *)
Theorem empty_pdf_is_extraction_failure (cv_path job_path : string)
  (pages : list (exn + string)) :
  PdfReader cv_path = inr pages \/ PdfReader job_path = inr pages ->
  Forall (fun page => page = inr "") pages ->
  match_cv_with_job datetime exn str_of_exn as_exn
    (extract_text_from_pdf exn PdfReader) extract_cv extract_job
    now_result now_filename strftime save_pdf save_json cv_path job_path
  = (None, Some "Failed to extract text from one or both PDF files").
Proof.
  intros Hreader Hempty.
  assert (Hsome : extract_text_from_pdf exn PdfReader cv_path = Some ""
                  \/ extract_text_from_pdf exn PdfReader job_path = Some "").
  { unfold extract_text_from_pdf.
    destruct Hreader as [H | H]; [left | right];
      now rewrite H, (read_pages_empty pages "" Hempty). }
  destruct (match_cv_with_job_cases datetime exn str_of_exn as_exn
              (extract_text_from_pdf exn PdfReader) extract_cv extract_job
              now_result now_filename strftime save_pdf save_json
              cv_path job_path)
    as [[_ Hrun] | [ct [jt [Ec [Hc [Ej [Hj _]]]]]]]; [assumption|].
  destruct Hsome as [H | H]; congruence.
Qed.

(** When the JSON file cannot be written, the result is returned all the
    same and the message names an empty JSON path. *)
Theorem json_failure_keeps_result (cv_path job_path cv_text job_text : string)
  (cv : CVData) (job : JobData) (sd : ScoreDetails) (pdf_output : string) :
  extract_text cv_path = Some cv_text -> cv_text <> "" ->
  extract_text job_path = Some job_text -> job_text <> "" ->
  extract_cv cv_text = Some cv ->
  extract_job job_text = Some job ->
  calculate_match_score cv job = inr sd ->
  save_pdf cv job sd = inr pdf_output ->
  (forall path result, exists e, dump_json path result = inl e) ->
  match_cv_with_job datetime exn str_of_exn as_exn extract_text extract_cv
    extract_job now_result now_filename strftime save_pdf
    (save_results_to_json datetime exn OUTPUT_DIR joinpath dump_json)
    cv_path job_path
  = (Some (complete_result now_result cv job sd),
     Some ("PDF: " ++ pdf_output ++ ", JSON: ")).
Proof.
  intros Ec Hc Ej Hj Dc Dj Hsd Es Hdump.
  unfold match_cv_with_job. rewrite Ec, Ej. unfold no_text.
  apply String.eqb_neq in Hc, Hj. rewrite Hc, Hj. simpl orb. cbv iota.
  rewrite Dc, Dj, Hsd. cbv zeta. rewrite Es.
  unfold save_results_to_json.
  destruct (Hdump (joinpath OUTPUT_DIR
                     (("match_result_" ++ strftime now_filename) ++ ".json"))
              (complete_result now_result cv job sd)) as [e He].
  unfold complete_result in He. rewrite He. reflexivity.
Qed.

Local Notation "'endpoint'" :=
  (match_cv_job datetime exn str_of_exn as_exn extract_text extract_cv
     extract_job now_result now_filename strftime save_pdf save_json
     stage_uploads).

(** The endpoint either returns the result the orchestrator produced for
    the staged files of two uploads with PDF names, or answers with status
    400 or 500 and a non-empty detail text. *)
Theorem endpoint_response_cases (cv_filename job_filename : string) :
  match endpoint cv_filename job_filename with
  | Returned match_result =>
      is_pdf_name cv_filename = true /\ is_pdf_name job_filename = true
      /\ exists cv_path job_path message,
           stage_uploads cv_filename job_filename = inr (cv_path, job_path)
           /\ match_cv_with_job datetime exn str_of_exn as_exn extract_text
                extract_cv extract_job now_result now_filename strftime
                save_pdf save_json cv_path job_path
              = (Some match_result, message)
  | HTTPException status_code detail =>
      (status_code = 400 \/ status_code = 500)%Z /\ detail <> ""
  end.
Proof.
  unfold match_cv_job.
  destruct (is_pdf_name cv_filename); simpl;
    [|split; [now left | discriminate]].
  destruct (is_pdf_name job_filename); simpl;
    [|split; [now left | discriminate]].
  destruct (stage_uploads cv_filename job_filename)
    as [e | [cv_path job_path]]; [split; [now right | discriminate]|].
  destruct (match_cv_with_job datetime exn str_of_exn as_exn extract_text
              extract_cv extract_job now_result now_filename strftime
              save_pdf save_json cv_path job_path) as [[r|] message] eqn:E.
  - repeat split. now exists cv_path, job_path, message.
  - split; [now right|]. unfold detail_or_default.
    destruct message as [m|]; [|discriminate].
    destruct (String.eqb m "") eqn:Em; [discriminate|].
    now apply String.eqb_neq.
Qed.

End CompositionFacts.

Section PdfNameFacts.

Lemma lower_app_inv (s a b : string) :
  lower s = a ++ b ->
  exists x y, s = x ++ y /\ lower x = a /\ lower y = b.
Proof.
  revert s; induction a as [|c a IH]; intros s H.
  - now exists "", s.
  - destruct s as [|d s]; [discriminate|].
    simpl in H. inversion H as [[Hd Hs]].
    destruct (IH s Hs) as [x [y [E [Hx Hy]]]].
    exists (String d x), y. simpl. now rewrite E, Hx.
Qed.

(** The upload check accepts exactly the names that end with an extension
    whose lowercase form is ".pdf": the letter case of the extension and the
    rest of the name play no part. *)
Theorem pdf_name_any_case (filename : string) :
  is_pdf_name filename = true
  <-> exists stem ext, filename = stem ++ ext /\ lower ext = ".pdf".
Proof.
  rewrite is_pdf_name_spec. split.
  - intros [stem' H]. apply lower_app_inv in H.
    destruct H as [x [y [E [_ Hy]]]]. now exists x, y.
  - intros [stem [ext [E Hext]]]. exists (lower stem).
    now rewrite E, lower_app, Hext.
Qed.

End PdfNameFacts.

Lemma empty_pdf_is_extraction_failure_witness :
  match_cv_with_job Z unit Sample.describe Sample.as_unit
    (extract_text_from_pdf unit Fixture.empty_pages) Sample.cv_of_text
    Sample.job_of_text 0%Z 0%Z Sample.stamp Sample.write_pdf
    Sample.write_json "cv.pdf" "job.pdf"
  = (None, Some "Failed to extract text from one or both PDF files").
Proof.
  apply (empty_pdf_is_extraction_failure Z unit Sample.describe
           Sample.as_unit Sample.cv_of_text Sample.job_of_text 0%Z 0%Z
           Sample.stamp Sample.write_pdf Sample.write_json
           Fixture.empty_pages "cv.pdf" "job.pdf" [inr ""; inr ""]).
  - left. reflexivity.
  - repeat constructor.
Defined.

Lemma json_failure_keeps_result_witness :
  exists sd,
    calculate_match_score Sample.cv_scenario Sample.job_scenario = inr sd
    /\ match_cv_with_job Z unit Sample.describe Sample.as_unit
         Sample.pdf_text Sample.cv_of_text Sample.job_of_text 0%Z 0%Z
         Sample.stamp Sample.write_pdf
         (save_results_to_json Z unit "output" Fixture.join_dir
            Fixture.failing_dump) "cv.pdf" "job.pdf"
       = (Some (complete_result 0%Z Sample.cv_scenario Sample.job_scenario
                  sd),
          Some ("PDF: " ++ "output/match_result_20240101_000000.pdf"
                ++ ", JSON: ")).
Proof.
  eexists. split; [reflexivity|].
  apply (json_failure_keeps_result Z unit Sample.describe Sample.as_unit
           Sample.pdf_text Sample.cv_of_text Sample.job_of_text 0%Z 0%Z
           Sample.stamp Sample.write_pdf "output" Fixture.join_dir
           Fixture.failing_dump "cv.pdf" "job.pdf" "text of cv.pdf"
           "text of job.pdf" Sample.cv_scenario Sample.job_scenario _
           "output/match_result_20240101_000000.pdf").
  - reflexivity.
  - discriminate.
  - reflexivity.
  - discriminate.
  - reflexivity.
  - reflexivity.
  - reflexivity.
  - reflexivity.
  - intros path result. exists tt. reflexivity.
Defined.

Section ReportFailure.

Variables (datetime exn : Type) (str_of_exn : exn -> string).
Variable as_exn : exception -> exn.
Variable extract_text : string -> option string.
Variable extract_cv : string -> option CVData.
Variable extract_job : string -> option JobData.
Variables (now_result now_filename : datetime).
Variable strftime : datetime -> string.
Variable save_pdf : CVData -> JobData -> ScoreDetails -> exn + string.
Variable save_json : @MatchResult datetime -> string -> string.

(** When writing the PDF report raises, the orchestrator returns no result,
    although extraction and scoring succeeded; its message is the text of
    the exception, and it does not depend on the JSON writer. *)
Theorem report_failure_discards_result
  (cv_path job_path cv_text job_text : string) (cv : CVData) (job : JobData)
  (sd : ScoreDetails) (e : exn) :
  extract_text cv_path = Some cv_text -> cv_text <> "" ->
  extract_text job_path = Some job_text -> job_text <> "" ->
  extract_cv cv_text = Some cv ->
  extract_job job_text = Some job ->
  calculate_match_score cv job = inr sd ->
  save_pdf cv job sd = inl e ->
  match_cv_with_job datetime exn str_of_exn as_exn extract_text extract_cv
    extract_job now_result now_filename strftime save_pdf save_json
    cv_path job_path
  = (None, Some (str_of_exn e)).
Proof.
  intros Ec Hc Ej Hj Dc Dj Hsd Es.
  unfold match_cv_with_job. rewrite Ec, Ej. unfold no_text.
  apply String.eqb_neq in Hc, Hj. rewrite Hc, Hj. simpl orb. cbv iota.
  rewrite Dc, Dj, Hsd. cbv zeta. now rewrite Es.
Qed.

(** A job text that starts with a year count of more than 4300 digits makes
    the scorer raise [ValueError] when it reads the required years; the
    orchestrator then returns no result, and its message is the text of
    that exception, although every extraction succeeded. *)
Theorem long_year_count_fails_matching
  (cv_path job_path cv_text job_text : string) (cv : CVData) (job : JobData)
  (g rest : string) :
  extract_text cv_path = Some cv_text -> cv_text <> "" ->
  extract_text job_path = Some job_text -> job_text <> "" ->
  extract_cv cv_text = Some cv ->
  extract_job job_text = Some job ->
  experience_needed job = g ++ rest ->
  all_digits g = true ->
  match_sep_year (lower rest) = true ->
  (int_max_str_digits < String.length g)%nat ->
  calculate_match_score cv job = inl (ValueError (String.length g))
  /\ match_cv_with_job datetime exn str_of_exn as_exn extract_text
       extract_cv extract_job now_result now_filename strftime save_pdf
       save_json cv_path job_path
     = (None, Some (str_of_exn (as_exn (ValueError (String.length g))))).
Proof.
  intros Ec Hc Ej Hj Dc Dj Ht Hd Hrest Hlen.
  assert (Hne : g <> "").
  { intros ->. simpl in Hlen. lia. }
  assert (Hy : required_years job = inl (ValueError (String.length g))).
  { rewrite (required_years_leading_core job g rest Ht Hne Hd Hrest).
    unfold int_of_digits. apply Nat.ltb_lt in Hlen. now rewrite Hlen. }
  assert (Hsd : calculate_match_score cv job
                = inl (ValueError (String.length g))).
  { unfold calculate_match_score, experience_subscore. now rewrite Hy. }
  split; [assumption|].
  unfold match_cv_with_job. rewrite Ec, Ej. unfold no_text.
  apply String.eqb_neq in Hc, Hj. rewrite Hc, Hj. simpl orb. cbv iota.
  now rewrite Dc, Dj, Hsd.
Qed.

End ReportFailure.

Lemma report_failure_discards_result_witness :
  match_cv_with_job Z unit Sample.describe Sample.as_unit Sample.pdf_text
    Sample.cv_of_text Sample.job_of_text 0%Z 0%Z Sample.stamp
    (fun _ _ _ => inl tt) Sample.write_json "cv.pdf" "job.pdf"
  = (None, Some "error").
Proof.
  eapply (report_failure_discards_result Z unit Sample.describe
            Sample.as_unit Sample.pdf_text Sample.cv_of_text
            Sample.job_of_text 0%Z 0%Z Sample.stamp (fun _ _ _ => inl tt)
            Sample.write_json "cv.pdf" "job.pdf" "text of cv.pdf"
            "text of job.pdf" Sample.cv_scenario Sample.job_scenario _ tt).
  - reflexivity.
  - discriminate.
  - reflexivity.
  - discriminate.
  - reflexivity.
  - reflexivity.
  - reflexivity.
  - reflexivity.
Defined.

Lemma long_year_count_fails_matching_witness :
  calculate_match_score Sample.cv_scenario Sample.job_long_years
  = inl (ValueError 4301)
  /\ match_cv_with_job Z unit Sample.describe Sample.as_unit Sample.pdf_text
       Sample.cv_of_text Sample.job_of_text_long 0%Z 0%Z Sample.stamp
       Sample.write_pdf Sample.write_json "cv.pdf" "job.pdf"
     = (None, Some "error").
Proof.
  refine (long_year_count_fails_matching Z unit Sample.describe
            Sample.as_unit Sample.pdf_text Sample.cv_of_text
            Sample.job_of_text_long 0%Z 0%Z Sample.stamp Sample.write_pdf
            Sample.write_json "cv.pdf" "job.pdf" "text of cv.pdf"
            "text of job.pdf" Sample.cv_scenario Sample.job_long_years
            Sample.long_digits " years" eq_refl _ eq_refl _ eq_refl eq_refl
            eq_refl _ eq_refl _).
  - discriminate.
  - discriminate.
  - vm_compute. reflexivity.
  - apply Nat.ltb_lt. vm_compute. reflexivity.
Defined.
